(** * BOAMP search back end: query resolution and search orchestration

    Shallow embedding of [Back-end/app.py]: the schema store, the field
    resolver, the two query builders, the search orchestrator with its
    result cache, and the record URL normaliser, followed by the properties
    proved about them.

    Conventions of the embedding.
    - A Python [str] is a [string] holding its UTF-8 bytes; comparisons by
      code point coincide with bytewise comparisons on UTF-8.
    - A value decoded from JSON is a [json] term; Python dictionaries are
      association lists in insertion order.
    - Module-level mutable state ([_SCHEMA_CACHE], [_RESULTS_CACHE]), the
      network and the clock live in an explicit [world]; functions that
      touch them are computations in the monad [M].
    - Readings of [time.time()] are integers in the unit of the two TTLs;
      the rounding of floating-point seconds is not modelled.
    - [urllib.parse.urlparse] and [urllib.parse.urljoin] are parameters of
      the URL normaliser. *)

From Stdlib Require Import ZArith List Ascii String DecimalString Permutation.
From stdpp Require Import gmap strings sorting.

Local Open Scope Z_scope.
Local Open Scope string_scope.

(* ===================================================================== *)
(** ** Python string primitives *)
(* ===================================================================== *)

Module Py.

(** Truth value of a [str]: empty strings are falsy. *)
Definition nonempty (s : string) : bool :=
  match s with EmptyString => false | String _ _ => true end.

(** [a or b] on strings. *)
Definition str_or (a b : string) : string := if nonempty a then a else b.

(** Truth value of an [Optional[str]]. *)
Definition opt_truthy (o : option string) : bool :=
  match o with Some s => nonempty s | None => false end.

(** [sep.join(l)]. *)
Fixpoint join (sep : string) (l : list string) : string :=
  match l with
  | [] => EmptyString
  | [x] => x
  | x :: r => x +:+ sep +:+ join sep r
  end.

(** [s.replace("'", "''")]. *)
Fixpoint double_quotes (s : string) : string :=
  match s with
  | EmptyString => EmptyString
  | String c r =>
      if Ascii.eqb c "'"%char
      then String "'" (String "'" (double_quotes r))
      else String c (double_quotes r)
  end.

(** One-byte whitespace as recognised by [str.isspace]:
    U+0009..U+000D, U+001C..U+001F and U+0020. *)
Definition is_space1 (c : ascii) : bool :=
  let n := N_of_ascii c in
  ((9 <=? n) && (n <=? 13) || (28 <=? n) && (n <=? 32))%N.

(** [s.lstrip()]: drops leading whitespace code points.  The multi-byte
    cases are the UTF-8 encodings of U+0085, U+00A0, U+1680,
    U+2000..U+200A, U+2028, U+2029, U+202F, U+205F and U+3000. *)
Fixpoint lstrip (s : string) : string :=
  match s with
  | EmptyString => EmptyString
  | String c t =>
      if is_space1 c then lstrip t
      else
        match N_of_ascii c, t with
        | 194%N, String d t2 =>
            let n := N_of_ascii d in
            if ((n =? 133) || (n =? 160))%N then lstrip t2 else s
        | 225%N, String d (String e t3) =>
            if ((N_of_ascii d =? 154) && (N_of_ascii e =? 128))%N
            then lstrip t3 else s
        | 226%N, String d (String e t3) =>
            let n := N_of_ascii d in
            let m := N_of_ascii e in
            if ((n =? 128) && ((128 <=? m) && (m <=? 138) || (m =? 168)
                               || (m =? 169) || (m =? 175))
                || (n =? 129) && (m =? 159))%N
            then lstrip t3 else s
        | 227%N, String d (String e t3) =>
            if ((N_of_ascii d =? 128) && (N_of_ascii e =? 128))%N
            then lstrip t3 else s
        | _, _ => s
        end
  end.

(** [s.rstrip()], by the mirrored scan.  On the reversed bytes a
    whitespace code point shows its last byte first. *)
Fixpoint lstrip_rev (s : string) : string :=
  match s with
  | EmptyString => EmptyString
  | String c t =>
      if is_space1 c then lstrip_rev t
      else
        match t with
        | String d t2 =>
            let n := N_of_ascii c in
            let m := N_of_ascii d in
            if ((m =? 194) && ((n =? 133) || (n =? 160)))%N
            then lstrip_rev t2
            else
              match t2 with
              | String e t3 =>
                  let l := N_of_ascii e in
                  if ((l =? 225) && (m =? 154) && (n =? 128)
                      || (l =? 226) && (m =? 128)
                         && ((128 <=? n) && (n <=? 138) || (n =? 168)
                             || (n =? 169) || (n =? 175))
                      || (l =? 226) && (m =? 129) && (n =? 159)
                      || (l =? 227) && (m =? 128) && (n =? 128))%N
                  then lstrip_rev t3 else s
              | EmptyString => s
              end
        | EmptyString => s
        end
  end.

Definition rstrip (s : string) : string :=
  String.rev (lstrip_rev (String.rev s)).

(** [s.strip()]. *)
Definition strip (s : string) : string := rstrip (lstrip s).

(** [s.rstrip("/")]. *)
Fixpoint drop_slashes (s : string) : string :=
  match s with
  | String "/" t => drop_slashes t
  | _ => s
  end.

Definition rstrip_slash (s : string) : string :=
  String.rev (drop_slashes (String.rev s)).

(** [needle in s] on strings. *)
Fixpoint contains (needle s : string) : bool :=
  String.prefix needle s
  || match s with
     | EmptyString => false
     | String _ t => contains needle t
     end.

(** [s.endswith(suffix)]. *)
Definition endswith (s suffix : string) : bool :=
  String.prefix (String.rev suffix) (String.rev s).

(** [s.split(sep)] for a one-character separator. *)
Fixpoint split_on (sep : ascii) (s : string) : list string :=
  match s with
  | EmptyString => [EmptyString]
  | String c t =>
      if Ascii.eqb c sep then EmptyString :: split_on sep t
      else
        match split_on sep t with
        | h :: r => String c h :: r
        | [] => [String c EmptyString]
        end
  end.

(** [str(n)] for an [int]. *)
Definition str_of_int (n : Z) : string := NilZero.string_of_int (Z.to_int n).

(** [list(s)] for a [str]: its code points, each as a one-character
    string.  A byte [10xxxxxx] continues the code point before it. *)
Definition is_continuation (c : ascii) : bool :=
  let n := N_of_ascii c in ((128 <=? n) && (n <=? 191))%N.

Fixpoint chars (s : string) : list string :=
  match s with
  | EmptyString => []
  | String c t =>
      match chars t with
      | h :: r =>
          if match h with String d _ => is_continuation d | _ => false end
          then String c h :: r
          else String c EmptyString :: h :: r
      | [] => [String c EmptyString]
      end
  end.

(** [sorted(l)] on a list of strings.  Python orders strings by code
    point; the result is the unique ordered rearrangement of [l]. *)
Definition sorted (l : list string) : list string := merge_sort String.le l.

End Py.

(* ===================================================================== *)
(** ** JSON values and [json.dumps] *)
(* ===================================================================== *)

(** Values produced by [json.loads].  Numbers are kept as integers: the
    code only tests them for truth and for being an [int]. *)
#[warnings="-register-all"]
Inductive json : Type :=
| JNull
| JBool (b : bool)
| JNum (n : Z)
| JStr (s : string)
| JArr (items : list json)
| JObj (members : list (string * json)).

Module Json.

(** Python truth value. *)
Definition truthy (j : json) : bool :=
  match j with
  | JNull => false
  | JBool b => b
  | JNum n => negb (n =? 0)%Z
  | JStr s => Py.nonempty s
  | JArr l => match l with [] => false | _ => true end
  | JObj m => match m with [] => false | _ => true end
  end.

(** [a or b]. *)
Definition or_else (a b : json) : json := if truthy a then a else b.

Fixpoint assoc (k : string) (m : list (string * json)) : option json :=
  match m with
  | [] => None
  | (k', v) :: r => if String.eqb k k' then Some v else assoc k r
  end.

(** [d.get(k, default)]: [None] stands for the [AttributeError] raised
    when [d] is not a dictionary. *)
Definition get (d : json) (k : string) (default : json) : option json :=
  match d with
  | JObj m => Some (match assoc k m with Some v => v | None => default end)
  | _ => None
  end.

(** Iteration over a value ([for f in x], [list(x)]): [None] stands for
    the [TypeError] raised on a value that is not iterable. *)
Definition iterate (x : json) : option (list json) :=
  match x with
  | JArr l => Some l
  | JObj m => Some (map (fun kv => JStr (fst kv)) m)
  | JStr s => Some (map JStr (Py.chars s))
  | _ => None
  end.

(** The double-quote character. *)
Definition dquote : ascii := ascii_of_N 34.

(** Hexadecimal digit, lower case. *)
Definition hex_lower (n : N) : ascii :=
  if (n <? 10)%N then ascii_of_N (48 + n) else ascii_of_N (87 + n).

(** String encoding of [json.dumps(..., ensure_ascii=False)]. *)
Fixpoint escape (s : string) : string :=
  match s with
  | EmptyString => EmptyString
  | String c r =>
      let n := N_of_ascii c in
      (if (n =? 34)%N then String "\" (String dquote EmptyString)
       else if (n =? 92)%N then "\\"
       else if (n =? 8)%N then "\b"
       else if (n =? 12)%N then "\f"
       else if (n =? 10)%N then "\n"
       else if (n =? 13)%N then "\r"
       else if (n =? 9)%N then "\t"
       else if (n <? 32)%N
            then "\u00" +:+ String (hex_lower (n / 16)) (String (hex_lower (n mod 16)) EmptyString)
       else String c EmptyString) +:+ escape r
  end.

Definition quote (s : string) : string :=
  String dquote (escape s) +:+ String dquote EmptyString.

(** Members ordered by key, as [sort_keys=True] does. *)
Definition member_le (a b : string * string) : Prop := String.le (fst a) (fst b).

#[global] Instance member_le_dec : RelDecision member_le.
Proof. intros a b. unfold member_le. apply _. Defined.

(** [json.dumps(j, sort_keys=True, ensure_ascii=False)] with the default
    separators.  Members are rendered first and ordered by key after:
    the order of rendering does not show in the result. *)
Fixpoint dumps (j : json) : string :=
  match j with
  | JNull => "null"
  | JBool true => "true"
  | JBool false => "false"
  | JNum n => Py.str_of_int n
  | JStr s => quote s
  | JArr l => "[" +:+ Py.join ", " (map dumps l) +:+ "]"
  | JObj m =>
      let rendered := map (fun kv => (fst kv, dumps (snd kv))) m in
      "{" +:+ Py.join ", "
                (map (fun kv => quote (fst kv) +:+ ": " +:+ snd kv)
                     (merge_sort member_le rendered))
          +:+ "}"
  end.

End Json.

(* ===================================================================== *)
(** ** [urllib.parse.urlencode] *)
(* ===================================================================== *)

Module Url.

(** Characters [quote] never escapes: letters, digits and [_.-~]. *)
Definition always_safe (c : ascii) : bool :=
  let n := N_of_ascii c in
  ((48 <=? n) && (n <=? 57) || (65 <=? n) && (n <=? 90)
   || (97 <=? n) && (n <=? 122)
   || (n =? 95) || (n =? 46) || (n =? 45) || (n =? 126))%N.

Definition hex_upper (n : N) : ascii :=
  if (n <? 10)%N then ascii_of_N (48 + n) else ascii_of_N (55 + n).

(** [quote_plus(s)]: spaces become [+], every other byte outside the
    safe set becomes [%XX]. *)
Fixpoint quote_plus (s : string) : string :=
  match s with
  | EmptyString => EmptyString
  | String c r =>
      let n := N_of_ascii c in
      (if always_safe c then String c EmptyString
       else if (n =? 32)%N then "+"
       else String "%" (String (hex_upper (n / 16))
                          (String (hex_upper (n mod 16)) EmptyString)))
      +:+ quote_plus r
  end.

(** [urlencode(params)] for a list of pairs of strings. *)
Definition urlencode (params : list (string * string)) : string :=
  Py.join "&" (map (fun kv => quote_plus (fst kv) +:+ "=" +:+ quote_plus (snd kv)) params).

End Url.

(* ===================================================================== *)
(** ** Configuration and domain constants *)
(* ===================================================================== *)

(** The module-level settings read from the process environment. *)
Record config : Type := {
  ODS_BASE : string;
  DATASET_ID : string;
  ODS_APIKEY : option string;
  PREFER_EXPLORE : bool;
  RESULTS_CACHE_TTL_SECONDS : Z;
  AUTO_FALLBACK_INSECURE_SSL : bool;
  ALLOW_INSECURE_SSL : bool
}.

Definition _SCHEMA_TTL_SECONDS : Z := 600.

Definition TRAINING_CPV_WHITELIST : list string :=
  ["80500000"; "80510000"; "80533100"; "80570000";
   "80000000"; "80553000"; "79632000"; "79952000"].

Definition TRAINING_SERVICE_CATEGORY : Z := 24.

Definition FIELD_CANDIDATES : list (string * list string) :=
  [ ("date", ["dateparution"; "date_publication"; "datepublication"; "date";
              "publication_date"; "record_timestamp"]);
    ("title", ["intitule"; "objet"; "titre"; "title"; "intitulé"; "objet_du_marche"]);
    ("url", ["url"; "lien"; "pageurl"; "url_avis"; "url_detail_avis"; "avis_url";
             "link"; "permalink"; "permalien"; "permalink_avis"; "permalien_avis"]);
    ("cpv", ["cpv"; "cpvs"; "code_cpv"; "codes_cpv"; "cpv_principal"]);
    ("dept", ["lieu_execution_code"; "code_departement"; "departement";
              "code_dept"; "dept"; "code_insee_departement"]);
    ("buyer", ["acheteur"; "acheteur_nom"; "acheteur_name"; "organisme";
               "acheteur.principal"]);
    ("description", ["description"; "objet"; "objet_detail"; "objetcomplet"; "texte"]);
    ("ref", ["reference"; "référence"; "numero"; "num_avis"; "identifiant";
             "no_avis"; "num_annonce"; "id"; "recordid"]);
    ("serviceCategory", ["categorie_services"; "categorie_service"; "categorie";
                         "categorie_de_services"; "category_service";
                         "service_category"]);
    ("nature", ["nature"; "nature_avis"; "type_avis"; "type"; "etat"; "etat_avis"]);
    ("deadline", ["date_limite_remise_offres"; "date_limite_de_reception_des_offres";
                  "date_limite_offres"; "date_reception_offres"; "date_reponse";
                  "date_limite"; "date_depot_offre"; "deadline"]);
    ("buyerAddress", ["nom_et_adresse_officiels_de_l_organisme_acheteur";
                      "nom_et_adresse_officiels_de_lorganisme_acheteur";
                      "acheteur_adresse"; "adresse_acheteur"; "organisme_adresse";
                      "acheteur_coordonnees"; "coordonnees_acheteur"; "adresse"]);
    ("budget", ["montant"; "montant_estime"; "valeur"; "budget"; "amount"]);
    ("procedure", ["procedure"; "type_procedure"; "mode_de_passation";
                   "procedure_type"]);
    ("marketType", ["type_marche"; "type_du_marche"; "type"]);
    ("place", ["lieu_execution"; "lieu_execution_nom"; "lieu_dexecution";
               "localisation"; "ville"; "commune"]) ].

(** [FIELD_CANDIDATES[slot]]; every slot the code asks for is a key. *)
Fixpoint candidates_in (table : list (string * list string)) (slot : string)
  : list string :=
  match table with
  | [] => []
  | (k, l) :: r => if String.eqb slot k then l else candidates_in r slot
  end.

Definition candidates (slot : string) : list string :=
  candidates_in FIELD_CANDIDATES slot.

(** The dataclass of resolved column names. *)
Record ResolvedFields : Type := {
  date : string;
  title : string;
  url : string;
  cpv : string;
  dept : string;
  buyer : string;
  description : string;
  ref : string;
  serviceCategory : string;
  nature : string;
  deadline : string;
  buyerAddress : string;
  budget : string;
  procedure : string;
  marketType : string;
  place : string
}.

(** [fields.__dict__], in declaration order. *)
Definition fields_dict (f : ResolvedFields) : json :=
  JObj [ ("date", JStr (date f)); ("title", JStr (title f)); ("url", JStr (url f));
         ("cpv", JStr (cpv f)); ("dept", JStr (dept f)); ("buyer", JStr (buyer f));
         ("description", JStr (description f)); ("ref", JStr (ref f));
         ("serviceCategory", JStr (serviceCategory f)); ("nature", JStr (nature f));
         ("deadline", JStr (deadline f)); ("buyerAddress", JStr (buyerAddress f));
         ("budget", JStr (budget f)); ("procedure", JStr (procedure f));
         ("marketType", JStr (marketType f)); ("place", JStr (place f)) ].

(* ===================================================================== *)
(** ** Field resolver *)
(* ===================================================================== *)

(** The list comprehension of [resolve_fields]: [None] when any step
    raises. *)
Definition schema_names_raw (schema : json) : option (list json) :=
  d ← Json.get schema "dataset" (JObj []);
  fs ← Json.get d "fields" (JArr []);
  items ← Json.iterate (Json.or_else fs (JArr []));
  mapM (fun f => Json.get f "name" (JStr EmptyString)) items.

(** [names] after the [try]/[except Exception] block. *)
Definition schema_names (schema : json) : list json :=
  match schema_names_raw schema with
  | Some names => names
  | None => []
  end.

(** [c in names]: equality of a string with a decoded value. *)
Definition name_in (c : string) (names : list json) : bool :=
  existsb (fun j => match j with JStr s => String.eqb c s | _ => false end) names.

(** The local function [pick]. *)
Fixpoint pick (names : list json) (cands : list string) (fallback : string)
  : string :=
  match cands with
  | [] => fallback
  | c :: r => if name_in c names then c else pick names r fallback
  end.

Definition resolve_fields (schema : json) : ResolvedFields :=
  let names := schema_names schema in
  {| date := pick names (candidates "date") "record_timestamp";
     title := pick names (candidates "title") "title";
     url := pick names (candidates "url") "permalink";
     cpv := pick names (candidates "cpv") "cpv";
     dept := pick names (candidates "dept") "departement";
     buyer := pick names (candidates "buyer") "acheteur";
     description := pick names (candidates "description") "description";
     ref := pick names (candidates "ref") "id";
     serviceCategory := pick names (candidates "serviceCategory") "categorie_services";
     nature := pick names (candidates "nature") "nature";
     deadline := pick names (candidates "deadline") "date_limite_remise_offres";
     buyerAddress := pick names (candidates "buyerAddress")
                       "nom_et_adresse_officiels_de_l_organisme_acheteur";
     budget := pick names (candidates "budget") "montant";
     procedure := pick names (candidates "procedure") "procedure";
     marketType := pick names (candidates "marketType") "type_marche";
     place := pick names (candidates "place") "lieu_execution" |}.

(* ===================================================================== *)
(** ** Query builders *)
(* ===================================================================== *)

(** Truth value of an [Optional[List[str]]]. *)
Definition list_truthy (o : option (list string)) : bool :=
  match o with Some (_ :: _) => true | _ => false end.

Definition opt_list (o : option (list string)) : list string :=
  match o with Some l => l | None => [] end.

Definition _safe_like_fragment (field value : string) : string :=
  "string(" +:+ field +:+ ") LIKE '%" +:+ Py.double_quotes value +:+ "%'".

Section Builders.

Variable cfg : config.

(** Truth value of [ODS_APIKEY]. *)
Definition apikey_param : list (string * string) :=
  match ODS_APIKEY cfg with
  | Some k => if Py.nonempty k then [("apikey", k)] else []
  | None => []
  end.

(** [keywords and keywords.strip()], as a truth value. *)
Definition has_text (keywords : string) : bool :=
  Py.nonempty keywords && Py.nonempty (Py.strip keywords).

(** The list [where] of [build_explore_url], clause by clause in the
    order the source appends them. *)
Definition explore_where
    (cpv_prefix : string) (dept_codes : list string) (buyer_name : option string)
    (service_category_equals : option string)
    (cpv_whitelist nature_in : option (list string))
    (date_from date_to : option string) (fields : ResolvedFields)
  : list string :=
  let cpv_field := Py.str_or (cpv fields) "cpv" in
  (* CPV whitelist *)
  (if list_truthy cpv_whitelist then
     let parts :=
       map (_safe_like_fragment cpv_field)
           (filter (fun c => Py.nonempty (Py.strip c) = true) (opt_list cpv_whitelist)) in
     match parts with
     | [] => []
     | _ => ["(" +:+ Py.join " OR " parts +:+ ")"]
     end
   else [])
  (* CPV prefix *)
  ++ (if Py.nonempty cpv_prefix then
        let prefix := Py.double_quotes cpv_prefix in
        ["(string(" +:+ cpv_field +:+ ") LIKE '" +:+ prefix +:+ "%' OR string("
           +:+ cpv_field +:+ ") LIKE '%" +:+ prefix +:+ "%')"]
      else [])
  (* Departments *)
  ++ (match dept_codes with
      | [] => []
      | _ =>
          let in_list := Py.join "," (map (fun c => "'" +:+ c +:+ "'") dept_codes) in
          ["(" +:+ Py.str_or (dept fields) "departement" +:+ " IN (" +:+ in_list +:+ "))"]
      end)
  (* Buyer *)
  ++ (match buyer_name with
      | Some b =>
          if Py.nonempty b && Py.nonempty (Py.strip b)
          then [_safe_like_fragment (Py.str_or (buyer fields) "acheteur") b]
          else []
      | None => []
      end)
  (* Service category *)
  ++ (match service_category_equals with
      | Some c =>
          if Py.nonempty c
          then [Py.str_or (serviceCategory fields) "categorie_services"
                  +:+ " = '" +:+ Py.double_quotes c +:+ "'"]
          else []
      | None => []
      end)
  (* Nature *)
  ++ (if list_truthy nature_in then
        let values :=
          map (fun v => "'" +:+ Py.double_quotes v +:+ "'")
              (filter (fun v => Py.nonempty (Py.strip v) = true) (opt_list nature_in)) in
        match values with
        | [] => []
        | _ => ["string(" +:+ Py.str_or (nature fields) "nature" +:+ ") IN ("
                  +:+ Py.join "," values +:+ ")"]
        end
      else [])
  (* Date range *)
  ++ (let date_field := Py.str_or (date fields) "record_timestamp" in
      (match date_from with
       | Some d => if Py.nonempty d then [date_field +:+ " >= '" +:+ d +:+ "'"] else []
       | None => []
       end)
      ++ (match date_to with
          | Some d => if Py.nonempty d then [date_field +:+ " <= '" +:+ d +:+ "'"] else []
          | None => []
          end)).

(** The value appended under [order_by]. *)
Definition explore_order_by (keywords : string) (sort : option string)
    (fields : ResolvedFields) : string :=
  let date_field := Py.str_or (date fields) "record_timestamp" in
  if bool_decide (sort = Some "deadline") && Py.nonempty (deadline fields)
  then "-" +:+ deadline fields
  else if bool_decide (sort = Some "relevance") && has_text keywords
  then "relevance"
  else "-" +:+ date_field.

(** The list [params] of [build_explore_url]. *)
Definition explore_params
    (keywords cpv_prefix : string) (dept_codes : list string)
    (buyer_name service_category_equals : option string)
    (cpv_whitelist nature_in : option (list string)) (sort : option string)
    (date_from date_to : option string) (page page_size : Z)
    (fields : ResolvedFields)
  : list (string * string) :=
  (if has_text keywords then [("q", Py.strip keywords)] else [])
  ++ (match explore_where cpv_prefix dept_codes buyer_name service_category_equals
              cpv_whitelist nature_in date_from date_to fields with
      | [] => []
      | clauses => [("where", Py.join " AND " clauses)]
      end)
  ++ [("order_by", explore_order_by keywords sort fields);
      ("limit", Py.str_of_int page_size);
      ("offset", Py.str_of_int ((page - 1) * page_size))]
  ++ apikey_param.

Definition build_explore_url
    (keywords cpv_prefix : string) (dept_codes : list string)
    (buyer_name service_category_equals : option string)
    (cpv_whitelist nature_in : option (list string)) (sort : option string)
    (date_from date_to : option string) (page page_size : Z)
    (fields : ResolvedFields)
  : string :=
  let base := Py.rstrip_slash (ODS_BASE cfg) in
  let query :=
    Url.urlencode
      (explore_params keywords cpv_prefix dept_codes buyer_name
         service_category_equals cpv_whitelist nature_in sort date_from date_to
         page page_size fields) in
  base +:+ "/api/explore/v2.1/catalog/datasets/" +:+ DATASET_ID cfg
       +:+ "/records?" +:+ query.

(** The list [params] of [build_records_v1_url]. *)
Definition records_v1_params
    (q : option string) (dept_codes : list string) (buyer_name : option string)
    (cpv_whitelist : option (list string))
    (service_category_equals : option string) (page page_size : Z)
    (fields : ResolvedFields)
  : list (string * string) :=
  [("dataset", DATASET_ID cfg); ("rows", Py.str_of_int page_size);
   ("start", Py.str_of_int ((page - 1) * page_size))]
  ++ (match q with
      | Some t => if Py.nonempty t then [("q", t)] else []
      | None => []
      end)
  ++ (if list_truthy cpv_whitelist
      then map (fun code => ("refine." +:+ Py.str_or (cpv fields) "cpv", code))
               (opt_list cpv_whitelist)
      else [])
  ++ (match service_category_equals with
      | Some c =>
          if Py.nonempty c
          then [("refine." +:+ Py.str_or (serviceCategory fields) "categorie_services", c)]
          else []
      | None => []
      end)
  ++ map (fun d => ("refine." +:+ Py.str_or (dept fields) "code_departement", d))
         dept_codes
  ++ (match buyer_name with
      | Some b =>
          if Py.nonempty b
          then [("refine." +:+ Py.str_or (buyer fields) "acheteur", b)]
          else []
      | None => []
      end)
  ++ apikey_param.

Definition build_records_v1_url
    (q : option string) (dept_codes : list string) (buyer_name : option string)
    (cpv_whitelist : option (list string))
    (service_category_equals : option string) (page page_size : Z)
    (fields : ResolvedFields)
  : string :=
  let base := Py.rstrip_slash (ODS_BASE cfg) in
  base +:+ "/api/records/1.0/search/?"
       +:+ Url.urlencode
             (records_v1_params q dept_codes buyer_name cpv_whitelist
                service_category_equals page page_size fields).

End Builders.

(* ===================================================================== *)
(** ** World, exceptions and the computation monad *)
(* ===================================================================== *)

(** The exception classes that reach the orchestrator.  [URLError] is a
    [URLError] that is not an [HTTPError]: [urllib] wraps in it the
    [OSError]s raised while the request is being sent (name resolution,
    connection refused, TLS handshake, timeout while connecting).
    [TimeoutError] is the socket timeout raised while the response is
    awaited or read, after the request was sent: it is an [OSError] that
    [urllib] does not wrap.  [UnicodeDecodeError] is what
    [data.decode("utf-8")] raises on a body that is not UTF-8; like
    [JSONDecodeError] it is a [ValueError], and neither is a subclass of
    the other.  [OtherError] is any exception outside these classes
    ([AttributeError], [TypeError], a plain [ValueError], ...). *)
Inductive exn : Type :=
| HTTPError (code : Z)
| URLError
| JSONDecodeError
| TimeoutError
| UnicodeDecodeError
| OtherError.

(** What one [urlopen] / [read] / [decode] / [json.loads] sequence gives.
    [cert_failure] tells whether the text of the exception reports a
    certificate verification failure. *)
Inductive fetch_outcome : Type :=
| Fetched (j : json)
| Failed (e : exn) (cert_failure : bool).

(** One entry of the trace of [_http_get_json]: a call of [urlopen], or
    ([rq_sent] false) a call of [_http_get_json] that ended at
    [Request(url)], before any [urlopen]. *)
Record request : Type := {
  rq_url : string;
  rq_unverified : bool;   (* made with an unverified SSL context *)
  rq_retry : bool;        (* the second call inside one [_http_get_json] *)
  rq_sent : bool          (* [urlopen] was called *)
}.

(** The tuple [(records, total, debug_url, fields)]. *)
Record search_result : Type := {
  sr_records : list json;
  sr_total : json;
  sr_url : string;
  sr_fields : ResolvedFields
}.

(** A value of [_RESULTS_CACHE]: [{"value": ..., "ts": ...}]. *)
Record cache_entry : Type := {
  ce_value : search_result;
  ce_ts : Z
}.

(** The surroundings of the process: its settings, whether
    [urllib.request.Request] accepts a URL (it raises [ValueError],
    "unknown url type", for a URL in which it finds no scheme), the answer
    of the network to the [n]-th entry of the trace, and the [n]-th reading
    of the clock. *)
Record env : Type := {
  cfg : config;
  request_accepts : string → bool;
  urlopen : nat → string → bool → fetch_outcome;
  time : nat → Z
}.

Record world : Type := {
  schema_value : json;                      (* _SCHEMA_CACHE["value"] *)
  schema_ts : Z;                            (* _SCHEMA_CACHE["ts"] *)
  results_cache : gmap string cache_entry;  (* _RESULTS_CACHE *)
  requests : list request;                  (* trace of _http_get_json, oldest first *)
  clock_reads : nat                         (* calls of time.time() *)
}.

(** The state of a freshly started process. *)
Definition initial_world : world :=
  {| schema_value := JNull; schema_ts := 0; results_cache := ∅;
     requests := []; clock_reads := 0 |}.

Inductive result (A : Type) : Type :=
| Ok (a : A)
| Raise (e : exn).
Arguments Ok {A} a.
Arguments Raise {A} e.

(** Computations: state passing, with the state kept when an exception is
    raised. *)
Definition M (A : Type) : Type := world → result A * world.

Definition ret {A} (a : A) : M A := fun w => (Ok a, w).

Definition raise {A} (e : exn) : M A := fun w => (Raise e, w).

Definition bind {A B} (m : M A) (k : A → M B) : M B :=
  fun w =>
    match m w with
    | (Ok a, w') => k a w'
    | (Raise e, w') => (Raise e, w')
    end.

(** [try: m except ...: handler]. *)
Definition try_catch {A} (m : M A) (handler : exn → M A) : M A :=
  fun w =>
    match m w with
    | (Ok a, w') => (Ok a, w')
    | (Raise e, w') => handler e w'
    end.

Declare Scope M_scope.
Delimit Scope M_scope with M.
Notation "'do' x <- m ; k" := (bind m (fun x => k))
  (at level 10, x name, m at level 100, k at level 200) : M_scope.
Notation "m ;; k" := (bind m (fun _ => k))
  (at level 100, k at level 200, right associativity) : M_scope.

(** Updates of one component of the world. *)
Definition tick (w : world) : world :=
  {| schema_value := schema_value w; schema_ts := schema_ts w;
     results_cache := results_cache w; requests := requests w;
     clock_reads := S (clock_reads w) |}.

Definition log_request (rq : request) (w : world) : world :=
  {| schema_value := schema_value w; schema_ts := schema_ts w;
     results_cache := results_cache w; requests := requests w ++ [rq];
     clock_reads := clock_reads w |}.

Definition set_results (c : gmap string cache_entry) (w : world) : world :=
  {| schema_value := schema_value w; schema_ts := schema_ts w;
     results_cache := c; requests := requests w;
     clock_reads := clock_reads w |}.

Definition set_schema (schema : json) (ts : Z) (w : world) : world :=
  {| schema_value := schema; schema_ts := ts;
     results_cache := results_cache w; requests := requests w;
     clock_reads := clock_reads w |}.

(** The keyword arguments of [perform_search]. *)
Record search_args : Type := {
  a_q : string;
  a_cpv_prefix : string;
  a_dept_codes : list string;
  a_buyer : option string;
  a_date_from : option string;
  a_date_to : option string;
  a_nature_in : option (list string);
  a_use_training : bool;
  a_page : Z;
  a_page_size : Z;
  a_sort : option string
}.

Section Orchestrator.

Variable E : env.
Local Open Scope M_scope.

(** [time.time()]. *)
Definition read_clock : M Z :=
  fun w => (Ok (time E (clock_reads w)), tick w).

(** One [urlopen] and the decoding of its body, recorded in the trace. *)
Definition send (u : string) (unverified retry : bool) : world → fetch_outcome * world :=
  fun w =>
    (urlopen E (length (requests w)) u unverified,
     log_request {| rq_url := u; rq_unverified := unverified; rq_retry := retry;
                    rq_sent := true |} w).

(** The trace entry of a call that ended at [Request(url)]. *)
Definition refused (u : string) : request :=
  {| rq_url := u; rq_unverified := false; rq_retry := false; rq_sent := false |}.

(** [_http_get_json].  [Request(url, headers=...)] is built before the
    [try]: its [ValueError] leaves the function at once, with no
    [urlopen] and no retry. *)
Definition _http_get_json (u : string) : M json :=
  fun w =>
    if negb (request_accepts E u) then (Raise OtherError, log_request (refused u) w)
    else
      let allow_insecure := ALLOW_INSECURE_SSL (cfg E) in
      match send u allow_insecure false w with
      | (Fetched j, w1) => (Ok j, w1)
      | (Failed e cert_failure, w1) =>
          if negb allow_insecure && AUTO_FALLBACK_INSECURE_SSL (cfg E) && cert_failure
          then
            match send u true true w1 with
            | (Fetched j, w2) => (Ok j, w2)
            | (Failed e2 _, w2) => (Raise e2, w2)
            end
          else (Raise e, w1)
      end.

(** The two assignments to [_SCHEMA_CACHE]. *)
Definition store_schema (schema : json) (now : Z) : M unit :=
  fun w => (Ok tt, set_schema schema now w).

Definition schema_url : string :=
  let base := Py.rstrip_slash (ODS_BASE (cfg E)) in
  let u := base +:+ "/api/v2/catalog/datasets/" +:+ DATASET_ID (cfg E) in
  match ODS_APIKEY (cfg E) with
  | Some k => if Py.nonempty k then u +:+ "?" +:+ Url.urlencode [("apikey", k)] else u
  | None => u
  end.

Definition fetch_dataset_schema (force_refresh : bool) : M json :=
  do now <- read_clock;
  fun w =>
    let cached := schema_value w in
    if negb force_refresh && Json.truthy cached
       && (now - schema_ts w <? _SCHEMA_TTL_SECONDS)%Z
    then (Ok cached, w)
    else
      (do schema <- _http_get_json schema_url;
       store_schema schema now;;
       ret schema) w.

(** [_cache_get].  A stored entry is a two-key dictionary, hence true;
    the clock is read only once an entry was found. *)
Definition _cache_get (key : string) : M (option search_result) :=
  fun w =>
    match results_cache w !! key with
    | None => (Ok None, w)
    | Some entry =>
        let now := time E (clock_reads w) in
        let w1 := tick w in
        if (now - ce_ts entry >? RESULTS_CACHE_TTL_SECONDS (cfg E))%Z
        then (Ok None, set_results (delete key (results_cache w1)) w1)
        else (Ok (Some (ce_value entry)), w1)
    end.

Definition _cache_set (key : string) (value : search_result) : M unit :=
  do now <- read_clock;
  fun w =>
    (Ok tt,
     set_results (<[key := {| ce_value := value; ce_ts := now |}]> (results_cache w)) w).

(** [list(data.get(key) or [])]; an [AttributeError] or [TypeError]
    surfaces as [OtherError]. *)
Definition records_of (data : json) (key : string) : M (list json) :=
  match Json.get data key JNull with
  | Some v =>
      match Json.iterate (Json.or_else v (JArr [])) with
      | Some l => ret l
      | None => raise OtherError
      end
  | None => raise OtherError
  end.

(** [int(total) if isinstance(total, int) else total] on
    [data.get(key)]; [bool] is a subclass of [int]. *)
Definition total_of (data : json) (key : string) : json :=
  match Json.get data key JNull with
  | Some (JBool b) => JNum (if b then 1 else 0)
  | Some v => v
  | None => JNull
  end.

Definition training_whitelist (use_training : bool) : option (list string) :=
  if use_training then Some TRAINING_CPV_WHITELIST else None.

Definition training_category (use_training : bool) : option string :=
  if use_training then Some (Py.str_of_int TRAINING_SERVICE_CATEGORY) else None.

(** [_try_explore].  The parameter [sort] is received and not used: the
    builder is called with [sort=None]. *)
Definition _try_explore
    (q cpv_prefix : string) (dept_codes : list string) (buyer_name : option string)
    (date_from date_to : option string) (nature_in : option (list string))
    (sort : option string) (use_training : bool) (page page_size : Z)
    (fields : ResolvedFields) : M search_result :=
  let cpv_whitelist := training_whitelist use_training in
  let service_cat := training_category use_training in
  let explore_url :=
    build_explore_url (cfg E) q cpv_prefix dept_codes buyer_name service_cat
      cpv_whitelist nature_in None date_from date_to page page_size fields in
  do data <- _http_get_json explore_url;
  do records <- records_of data "results";
  ret {| sr_records := records; sr_total := total_of data "total_count";
         sr_url := explore_url; sr_fields := fields |}.

Definition _try_records_v1
    (q : string) (dept_codes : list string) (buyer_name : option string)
    (use_training : bool) (page page_size : Z) (fields : ResolvedFields)
  : M search_result :=
  let cpv_whitelist := training_whitelist use_training in
  let service_cat := training_category use_training in
  let v1_url :=
    build_records_v1_url (cfg E) (if Py.nonempty q then Some q else None)
      dept_codes buyer_name cpv_whitelist service_cat page page_size fields in
  do data <- _http_get_json v1_url;
  do records <- records_of data "records";
  ret {| sr_records := records; sr_total := total_of data "nhits";
         sr_url := v1_url; sr_fields := fields |}.

Definition json_opt_str (o : option string) : json :=
  match o with Some s => JStr s | None => JNull end.

(** The dictionary handed to [json.dumps] for the cache key. *)
Definition cache_key_dict (a : search_args) (fields : ResolvedFields) : json :=
  JObj [ ("base", JStr (ODS_BASE (cfg E)));
         ("dataset", JStr (DATASET_ID (cfg E)));
         ("q", JStr (a_q a));
         ("cpv_prefix", JStr (a_cpv_prefix a));
         ("dept_codes", JArr (map JStr (Py.sorted (a_dept_codes a))));
         ("buyer", json_opt_str (a_buyer a));
         ("date_from", json_opt_str (a_date_from a));
         ("date_to", json_opt_str (a_date_to a));
         ("use_training", JBool (a_use_training a));
         ("nature_in",
           JArr (map JStr (if list_truthy (a_nature_in a)
                           then opt_list (a_nature_in a) else [])));
         ("page", JNum (a_page a));
         ("page_size", JNum (a_page_size a));
         ("fields", fields_dict fields);
         ("sort", JStr (match a_sort a with
                        | Some s => if Py.nonempty s then s else EmptyString
                        | None => EmptyString
                        end)) ].

Definition cache_key (a : search_args) (fields : ResolvedFields) : string :=
  Json.dumps (cache_key_dict a fields).

Definition run_explore (a : search_args) (fields : ResolvedFields) : M search_result :=
  _try_explore (a_q a) (a_cpv_prefix a) (a_dept_codes a) (a_buyer a)
    (a_date_from a) (a_date_to a) (a_nature_in a) (a_sort a)
    (a_use_training a) (a_page a) (a_page_size a) fields.

Definition run_records_v1 (a : search_args) (fields : ResolvedFields) : M search_result :=
  _try_records_v1 (a_q a) (a_dept_codes a) (a_buyer a) (a_use_training a)
    (a_page a) (a_page_size a) fields.

(** A dialect call followed by [_cache_set(cache_key, result)] and
    [return result]. *)
Definition cached_call (key : string) (m : M search_result) : M search_result :=
  do result <- m;
  _cache_set key result;;
  ret result.

Definition perform_search (a : search_args) : M search_result :=
  do schema <- fetch_dataset_schema false;
  let fields := resolve_fields schema in
  let key := cache_key a fields in
  do cached <- _cache_get key;
  match cached with
  | Some hit => ret hit          (* a four-element tuple is true *)
  | None =>
      if PREFER_EXPLORE (cfg E) then
        try_catch (cached_call key (run_explore a fields))
          (fun e =>
             match e with
             | HTTPError code =>
                 if (400 <=? code)%Z && (code <=? 499)%Z
                 then cached_call key (run_records_v1 a fields)
                 else raise e
             | URLError | JSONDecodeError =>
                 cached_call key (run_records_v1 a fields)
             | TimeoutError | UnicodeDecodeError | OtherError => raise e
             end)
      else
        try_catch (cached_call key (run_records_v1 a fields))
          (fun e =>
             match e with
             | HTTPError _ | URLError | JSONDecodeError =>
                 cached_call key (run_explore a fields)
             | TimeoutError | UnicodeDecodeError | OtherError => raise e
             end)
  end.

End Orchestrator.

(* ===================================================================== *)
(** ** Record URL normaliser *)
(* ===================================================================== *)

Section Normalizer.

(** The two functions of [urllib.parse] the normaliser calls.  [None]
    stands for a raised exception; [urlparse_hostname u] is
    [urlparse(u).hostname], itself [None] or a string. *)
Variable urlparse_hostname : string → option (option string).
Variable urljoin : string → string → option string.

Definition _normalize_record_url
    (base dataset_id : string) (raw_url reference record_id : option string)
  : string :=
  let base_no_slash := Py.rstrip_slash base in
  let host :=
    match urlparse_hostname base_no_slash with
    | Some (Some h) => h
    | _ => EmptyString
    end in
  let dataset_record :=
    match record_id with
    | Some rid =>
        if Py.nonempty rid
        then base_no_slash +:+ "/explore/dataset/" +:+ dataset_id +:+ "/record/?id="
               +:+ default EmptyString
                     (Py.split_on "=" (Url.urlencode [("id", rid)]) !! 1%nat)
        else base_no_slash
    | None => base_no_slash
    end in
  let is_boamp_portal := Py.endswith host "boamp.fr" in
  let detail_or_record :=
    match reference with
    | Some r =>
        if is_boamp_portal && Py.nonempty r
        then base_no_slash +:+ "/avis/detail/" +:+ r
        else dataset_record
    | None => dataset_record
    end in
  match raw_url with
  | None => detail_or_record
  | Some raw =>
      if negb (Py.nonempty raw) then detail_or_record
      else
        match urljoin (base_no_slash +:+ "/") raw with
        | Some href =>
            if bool_decide (href = base_no_slash +:+ "/")
               || Py.contains "/pages/entreprise-accueil" href
            then detail_or_record
            else href
        | None => detail_or_record
        end
  end.

End Normalizer.

(* ===================================================================== *)
(** ** Request helpers *)
(* ===================================================================== *)

Definition KEYWORD_BUCKETS : list (string * list string) :=
  [ ("UX/UI", ["UX"; "UI"; "design d'interface"; "recherche utilisateur";
               "prototypage"; "Figma"; "ergonomie"]);
    ("3D / Motion", ["3D"; "motion design"; "animation"; "After Effects";
                     "Cinema 4D"; "Blender"]);
    ("Unity / Unreal", ["Unity"; "Unreal"; "jeu vidéo"; "temps réel"; "VR"; "AR"; "XR"]);
    ("IA créatives", ["intelligence artificielle"; "IA générative"; "Stable Diffusion";
                      "Midjourney"; "prompt"; "création assistée"]);
    ("Data / BI", ["data"; "Power BI"; "Excel avancé"; "Tableau"; "analyse de données";
                   "visualisation"]);
    ("Dev Web", ["développement web"; "JavaScript"; "TypeScript"; "React"; "Next.js";
                 "Node.js"]);
    ("Marketing digital", ["marketing digital"; "SEO"; "SEA"; "social media";
                           "campagnes"; "automation"]);
    ("Soft skills / Management", ["management"; "prise de parole"; "communication";
                                  "gestion de projet"; "agilité"; "scrum"]) ].

(** A phrase between double quotes. *)
Definition quoted_phrase (s : string) : string :=
  String Json.dquote s +:+ String Json.dquote EmptyString.

Definition TRAINING_TERMS : list string :=
  [ "formation"; quoted_phrase "formation professionnelle"; "apprentissage";
    quoted_phrase "formation continue"; quoted_phrase "actions de formation" ].

(** [KEYWORD_BUCKETS.get(name, [])]. *)
Definition bucket (name : string) : list string :=
  candidates_in KEYWORD_BUCKETS name.

(** [p and p.strip()], as a truth value. *)
Definition not_blank (p : string) : bool :=
  Py.nonempty p && Py.nonempty (Py.strip p).

Definition _compose_keywords
    (manual : string) (selected_buckets : list string) (use_training : bool)
  : string :=
  let bucket_terms := flat_map bucket selected_buckets in
  let bucket_expr :=
    Py.join " OR " (filter (fun t => Py.nonempty (Py.strip t) = true) bucket_terms) in
  let training_expr :=
    if use_training then Py.join " OR " TRAINING_TERMS else EmptyString in
  let manual_expr := manual in
  let parts :=
    filter (fun p => not_blank p = true) [manual_expr; bucket_expr; training_expr] in
  Py.join " OR " parts.

Definition _parse_csv_list (value : option string) : list string :=
  match value with
  | None => []
  | Some v =>
      if Py.nonempty v
      then map Py.strip
             (filter (fun s => Py.nonempty (Py.strip s) = true) (Py.split_on "," v))
      else []
  end.

(** [total_pages] as the search page computes it from the total of a
    search and the page size. *)
Definition total_pages (total : json) (page_size : Z) : Z :=
  match total with
  | JNum n =>
      if (page_size >? 0)%Z then Z.max 1 ((n + page_size - 1) / page_size) else 1
  | JBool b =>
      if (page_size >? 0)%Z
      then Z.max 1 (((if b then 1 else 0) + page_size - 1) / page_size)
      else 1
  | _ => 1
  end.

Section Pagination.

(** [int(s)] on a string; [None] stands for [ValueError]. *)
Variable int_of_str : string → option Z.

(** [request.args.get(name, default) or default]. *)
Definition arg_or (raw : option string) (default : string) : string :=
  match raw with
  | Some s => Py.str_or s default
  | None => default
  end.

(** The page number both routes compute from the [page] argument. *)
Definition request_page (raw : option string) : Z :=
  match int_of_str (arg_or raw "1") with
  | Some n => Z.max 1 n
  | None => 1
  end.

(** The page size both routes compute from the [pageSize] argument. *)
Definition request_page_size (raw : option string) : Z :=
  match int_of_str (arg_or raw "20") with
  | Some n => Z.max 1 (Z.min 100 n)
  | None => 20
  end.

End Pagination.

(** The optional schema refresh of the search page: the timestamp is
    reset, a forced fetch is made, and any exception is ignored. *)
Definition refresh_schema (E : env) : M unit :=
  fun w =>
    let w1 := set_schema (schema_value w) 0 w in
    match fetch_dataset_schema E true w1 with
    | (_, w2) => (Ok tt, w2)
    end.

(* ===================================================================== *)
(** ** Vocabulary of the statements *)
(* ===================================================================== *)


(** [c] is one of the column names of the schema. *)
Definition occurs (c : string) (names : list json) : Prop := In (JStr c) names.


(** Every attribute of a [ResolvedFields] value is a non-empty string. *)
Definition all_slots_nonempty (f : ResolvedFields) : Prop :=
  date f ≠ EmptyString ∧ title f ≠ EmptyString ∧ url f ≠ EmptyString
  ∧ cpv f ≠ EmptyString ∧ dept f ≠ EmptyString ∧ buyer f ≠ EmptyString
  ∧ description f ≠ EmptyString ∧ ref f ≠ EmptyString
  ∧ serviceCategory f ≠ EmptyString ∧ nature f ≠ EmptyString
  ∧ deadline f ≠ EmptyString ∧ buyerAddress f ≠ EmptyString
  ∧ budget f ≠ EmptyString ∧ procedure f ≠ EmptyString
  ∧ marketType f ≠ EmptyString ∧ place f ≠ EmptyString.

(** Whether [fetch_dataset_schema] answers from [_SCHEMA_CACHE]. *)
Definition schema_cache_serves (E : env) (force_refresh : bool) (w : world) : bool :=
  negb force_refresh && Json.truthy (schema_value w)
  && (time E (clock_reads w) - schema_ts w <? _SCHEMA_TTL_SECONDS)%Z.

(** Calls of [_http_get_json] on [u] recorded in a trace: the first entry
    of each call, the unverified retry not counted again. *)
Definition attempts (u : string) (trace : list request) : nat :=
  length (filter (fun rq => rq_url rq = u ∧ rq_retry rq = false) trace).

(** The failures of the Explore call after which the Records v1 call is
    made: HTTP status in 400..499, a [URLError], a [JSONDecodeError]. *)
Definition explore_failure_falls_back (e : exn) : bool :=
  match e with
  | HTTPError code => (400 <=? code)%Z && (code <=? 499)%Z
  | URLError | JSONDecodeError => true
  | TimeoutError | UnicodeDecodeError | OtherError => false
  end.

(** The failures of the Records v1 call after which the Explore call is
    made: any [HTTPError], a [URLError], a [JSONDecodeError]. *)
Definition records_v1_failure_falls_back (e : exn) : bool :=
  match e with
  | HTTPError _ | URLError | JSONDecodeError => true
  | TimeoutError | UnicodeDecodeError | OtherError => false
  end.

Definition fails_with {A} (P : exn → bool) (r : result A) : bool :=
  match r with Ok _ => false | Raise e => P e end.

(** The URL [_try_explore] requests for the arguments of a search. *)
Definition explore_url_sent (E : env) (a : search_args) (fields : ResolvedFields) : string :=
  build_explore_url (cfg E) (a_q a) (a_cpv_prefix a) (a_dept_codes a) (a_buyer a)
    (training_category (a_use_training a)) (training_whitelist (a_use_training a))
    (a_nature_in a) None (a_date_from a) (a_date_to a) (a_page a) (a_page_size a)
    fields.

(** The URL [_try_records_v1] requests for the arguments of a search. *)
Definition records_v1_url_sent (E : env) (a : search_args) (fields : ResolvedFields) : string :=
  build_records_v1_url (cfg E) (if Py.nonempty (a_q a) then Some (a_q a) else None)
    (a_dept_codes a) (a_buyer a) (training_whitelist (a_use_training a))
    (training_category (a_use_training a)) (a_page a) (a_page_size a) fields.

(** Single quotes come in adjacent pairs. *)
Fixpoint quotes_doubled (s : string) : bool :=
  match s with
  | EmptyString => true
  | String c r =>
      if Ascii.eqb c "'"%char
      then match r with
           | String d r' => Ascii.eqb d "'"%char && quotes_doubled r'
           | EmptyString => false
           end
      else quotes_doubled r
  end.

Definition with_dept_codes (l : list string) (a : search_args) : search_args :=
  {| a_q := a_q a; a_cpv_prefix := a_cpv_prefix a; a_dept_codes := l;
     a_buyer := a_buyer a; a_date_from := a_date_from a; a_date_to := a_date_to a;
     a_nature_in := a_nature_in a; a_use_training := a_use_training a;
     a_page := a_page a; a_page_size := a_page_size a; a_sort := a_sort a |}.

Definition with_nature_in (l : option (list string)) (a : search_args) : search_args :=
  {| a_q := a_q a; a_cpv_prefix := a_cpv_prefix a; a_dept_codes := a_dept_codes a;
     a_buyer := a_buyer a; a_date_from := a_date_from a; a_date_to := a_date_to a;
     a_nature_in := l; a_use_training := a_use_training a;
     a_page := a_page a; a_page_size := a_page_size a; a_sort := a_sort a |}.

(* ===================================================================== *)
(** ** Sample data and sample runs *)
(* ===================================================================== *)

(** A catalog answer listing "date_publication" after "dateparution". *)
Definition sample_schema : json :=
  JObj [("dataset",
         JObj [("fields",
                JArr [JObj [("name", JStr "objet")];
                      JObj [("name", JStr "dateparution")];
                      JObj [("label", JStr "no name here")]])])].

Definition sample_fields : ResolvedFields := resolve_fields sample_schema.

(** Stand-ins for the two [urllib.parse] functions, good enough for the
    URLs of the examples: the host is what follows "https://", the join
    replaces the path of the base by an absolute path. *)
Definition sample_hostname (u : string) : option (option string) :=
  if String.prefix "https://" u
  then Some (Some (String.substring 8 (String.length u - 8) u))
  else Some None.

Definition sample_urljoin (b raw : string) : option string :=
  match raw with
  | String "/" _ => Some (String.substring 0 (String.length b - 1) b +:+ raw)
  | _ => Some (b +:+ raw)
  end.

(** As [sample_urljoin], for a raw URL that has its own scheme and host:
    [urljoin] returns such a URL as it is. *)
Definition absolute_urljoin (b raw : string) : option string :=
  if String.prefix "https://" raw then Some raw else sample_urljoin b raw.

(** A process whose catalog answered once and then fails with HTTP 503. *)
Definition sample_cfg : config :=
  {| ODS_BASE := "https://boamp-datadila.opendatasoft.com/";
     DATASET_ID := "boamp"; ODS_APIKEY := None; PREFER_EXPLORE := true;
     RESULTS_CACHE_TTL_SECONDS := 60; AUTO_FALLBACK_INSECURE_SSL := true;
     ALLOW_INSECURE_SSL := false |}.

Definition records_first_cfg : config :=
  {| ODS_BASE := "https://boamp-datadila.opendatasoft.com/";
     DATASET_ID := "boamp"; ODS_APIKEY := None; PREFER_EXPLORE := false;
     RESULTS_CACHE_TTL_SECONDS := 60; AUTO_FALLBACK_INSECURE_SSL := true;
     ALLOW_INSECURE_SSL := false |}.

Definition sample_clock (n : nat) : Z := 100 + 10 * Z.of_nat n.

Definition sample_args : search_args :=
  {| a_q := "formation"; a_cpv_prefix := EmptyString; a_dept_codes := ["92"; "75"];
     a_buyer := None; a_date_from := None; a_date_to := None;
     a_nature_in := Some ["AppelOffre"; "Attribution"]; a_use_training := false;
     a_page := 1; a_page_size := 20; a_sort := Some "deadline" |}.

Definition explore_answer : json :=
  JObj [("total_count", JNum 1);
        ("results", JArr [JObj [("objet", JStr "Formation bureautique")]])].

Definition records_v1_answer : json :=
  JObj [("nhits", JNum 1);
        ("records", JArr [JObj [("fields", JObj [("objet", JStr "Formation bureautique")])]])].

Definition catalog_down : env :=
  {| cfg := sample_cfg;
     request_accepts := fun _ => true;
     urlopen := fun n _ _ =>
                  match n with
                  | O => Fetched sample_schema
                  | _ => Failed (HTTPError 503) false
                  end;
     time := fun n => 100 + 10 * Z.of_nat n |}.

(** The catalog answers, then Explore answers. *)
Definition portal_up : env :=
  {| cfg := sample_cfg;
     request_accepts := fun _ => true;
     urlopen := fun n _ _ =>
                  match n with O => Fetched sample_schema | _ => Fetched explore_answer end;
     time := sample_clock |}.

(** The catalog answers, Explore rejects the query with HTTP 404, Records
    v1 answers. *)
Definition explore_rejects : env :=
  {| cfg := sample_cfg;
     request_accepts := fun _ => true;
     urlopen := fun n _ _ =>
                  match n with
                  | O => Fetched sample_schema
                  | 1%nat => Failed (HTTPError 404) false
                  | _ => Fetched records_v1_answer
                  end;
     time := sample_clock |}.

(** Records v1 preferred: the catalog answers, Records v1 fails with HTTP
    503, Explore answers. *)
Definition records_v1_unavailable : env :=
  {| cfg := records_first_cfg;
     request_accepts := fun _ => true;
     urlopen := fun n _ _ =>
                  match n with
                  | O => Fetched sample_schema
                  | 1%nat => Failed (HTTPError 503) false
                  | _ => Fetched explore_answer
                  end;
     time := sample_clock |}.

(** The catalog answers, Explore fails with HTTP 503. *)
Definition explore_unavailable : env :=
  {| cfg := sample_cfg;
     request_accepts := fun _ => true;
     urlopen := fun n _ _ =>
                  match n with
                  | O => Fetched sample_schema
                  | 1%nat => Failed (HTTPError 503) false
                  | _ => Fetched records_v1_answer
                  end;
     time := sample_clock |}.

(** The catalog answers; the Explore request is sent and the wait for
    its response runs into the timeout ([TimeoutError]); Records v1 would
    answer. *)
Definition explore_times_out : env :=
  {| cfg := sample_cfg;
     request_accepts := fun _ => true;
     urlopen := fun n _ _ =>
                  match n with
                  | O => Fetched sample_schema
                  | 1%nat => Failed TimeoutError false
                  | _ => Fetched records_v1_answer
                  end;
     time := sample_clock |}.

(** The catalog answers; the body of the Explore answer is not UTF-8
    ([UnicodeDecodeError]); Records v1 would answer. *)
Definition explore_body_not_utf8 : env :=
  {| cfg := sample_cfg;
     request_accepts := fun _ => true;
     urlopen := fun n _ _ =>
                  match n with
                  | O => Fetched sample_schema
                  | 1%nat => Failed UnicodeDecodeError false
                  | _ => Fetched records_v1_answer
                  end;
     time := sample_clock |}.

(** A portal that always answers, seen by a process whose clock reads
    100, 690, 695, 705, 710: the schema snapshot taken at 100 is stale at
    705 while a result stored at 695 is still fresh at 710. *)
Definition slow_afternoon : env :=
  {| cfg := sample_cfg;
     request_accepts := fun _ => true;
     urlopen := fun n _ _ =>
                  match n with 1%nat => Fetched explore_answer | _ => Fetched sample_schema end;
     time := fun n =>
               match n with
               | O => 100 | 1%nat => 690 | 2%nat => 695 | 3%nat => 705 | _ => 710
               end |}.

Definition after_first_fetch : world :=
  snd (fetch_dataset_schema catalog_down false initial_world).

Definition after_first_fetch_up : world :=
  snd (fetch_dataset_schema portal_up false initial_world).

(** The world once the schema step of a first search is over and the
    result cache has reported a miss. *)
Definition after_lookup (E : env) : world :=
  snd (_cache_get E (cache_key E sample_args sample_fields)
         (snd (fetch_dataset_schema E false initial_world))).

(** The result of the first sample search on [portal_up]. *)
Definition sample_result : search_result :=
  {| sr_records := [JObj [("objet", JStr "Formation bureautique")]];
     sr_total := JNum 1;
     sr_url := explore_url_sent portal_up sample_args sample_fields;
     sr_fields := sample_fields |}.

Definition after_first_search : world :=
  snd (perform_search portal_up sample_args initial_world).

(** The first request of a call of [_http_get_json] on [u], and its
    unverified retry. *)
Definition first_request (E : env) (u : string) : request :=
  {| rq_url := u; rq_unverified := ALLOW_INSECURE_SSL (cfg E); rq_retry := false;
     rq_sent := true |}.

Definition retry_request (u : string) : request :=
  {| rq_url := u; rq_unverified := true; rq_retry := true; rq_sent := true |}.

(** The test [Request] makes, for the URLs of the samples: a URL that
    starts with a scheme is accepted. *)
Definition https_only (u : string) : bool := String.prefix "https://" u.

(** [ODS_BASE] was set without its scheme: [Request] refuses every URL
    built from it. *)
Definition no_scheme : env :=
  {| cfg :=
       {| ODS_BASE := "boamp-datadila.opendatasoft.com";
          DATASET_ID := DATASET_ID sample_cfg;
          ODS_APIKEY := ODS_APIKEY sample_cfg;
          PREFER_EXPLORE := PREFER_EXPLORE sample_cfg;
          RESULTS_CACHE_TTL_SECONDS := RESULTS_CACHE_TTL_SECONDS sample_cfg;
          AUTO_FALLBACK_INSECURE_SSL := AUTO_FALLBACK_INSECURE_SSL sample_cfg;
          ALLOW_INSECURE_SSL := ALLOW_INSECURE_SSL sample_cfg |};
     request_accepts := https_only;
     urlopen := fun _ _ _ => Fetched sample_schema;
     time := sample_clock |}.

(** A process that trusts no certificate store: the first request fails
    on certificate verification, the unverified retry is answered. *)
Definition behind_proxy : env :=
  {| cfg := sample_cfg;
     request_accepts := fun _ => true;
     urlopen := fun _ _ unverified =>
                  if unverified then Fetched sample_schema else Failed URLError true;
     time := sample_clock |}.

(** The world after [_cache_set(key, res)]. *)
Definition stored (E : env) (key : string) (res : search_result) (w : world) : world :=
  set_results (<[key := {| ce_value := res; ce_ts := time E (clock_reads w) |}]>
                 (results_cache w)) (tick w).

(** Every entry of the result cache of [w'] was already in that of [w]. *)
Definition no_new_entry (w w' : world) : Prop :=
  ∀ k entry, results_cache w' !! k = Some entry → results_cache w !! k = Some entry.

(** The catalog answers an empty object. *)
Definition empty_catalog : env :=
  {| cfg := sample_cfg;
     request_accepts := fun _ => true;
     urlopen := fun _ _ _ => Fetched (JObj []);
     time := sample_clock |}.

(** The catalog answers, both query dialects fail: Explore with 400,
    Records v1 with 502. *)
Definition both_fail : env :=
  {| cfg := sample_cfg;
     request_accepts := fun _ => true;
     urlopen := fun n _ _ =>
                  match n with
                  | O => Fetched sample_schema
                  | 1%nat => Failed (HTTPError 400) false
                  | _ => Failed (HTTPError 502) false
                  end;
     time := sample_clock |}.

(** The dialect [perform_search] calls first, the one it may call after
    a failure, and the failures after which it does. *)
Definition primary (E : env) (a : search_args) (fields : ResolvedFields)
  : M search_result :=
  if PREFER_EXPLORE (cfg E) then run_explore E a fields else run_records_v1 E a fields.

Definition secondary (E : env) (a : search_args) (fields : ResolvedFields)
  : M search_result :=
  if PREFER_EXPLORE (cfg E) then run_records_v1 E a fields else run_explore E a fields.

Definition falls_back (E : env) (e : exn) : bool :=
  if PREFER_EXPLORE (cfg E) then explore_failure_falls_back e
  else records_v1_failure_falls_back e.

(** What [perform_search] does from the world [w2] in which the result
    cache reported a miss, as a relation between [w2], the outcome and the
    final world. *)
Definition dialect_outcome (E : env) (a : search_args) (fields : ResolvedFields)
    (key : string) (w2 : world) (out : result search_result) (wf : world) : Prop :=
  ∃ r w3,
    primary E a fields w2 = (r, w3)
    ∧ match r with
      | Ok res => out = Ok res ∧ wf = stored E key res w3
      | Raise e =>
          if falls_back E e
          then ∃ r2 w4,
                 secondary E a fields w3 = (r2, w4)
                 ∧ match r2 with
                   | Ok res => out = Ok res ∧ wf = stored E key res w4
                   | Raise e2 => out = Raise e2 ∧ wf = w4
                   end
          else out = Raise e ∧ wf = w3
      end.

(** The world right after the sample result was stored under the sample
    key in a fresh process. *)
Definition after_sample_store : world :=
  snd (_cache_set portal_up (cache_key portal_up sample_args sample_fields)
         sample_result initial_world).

(** Reading back a string whose single quotes were doubled. *)
Fixpoint undouble_quotes (s : string) : string :=
  match s with
  | EmptyString => EmptyString
  | String c r =>
      if Ascii.eqb c "'"%char
      then match r with
           | String _ r' => String c (undouble_quotes r')
           | EmptyString => String c EmptyString
           end
      else String c (undouble_quotes r)
  end.

(** The sample catalog with its columns listed in another order, one of
    them twice. *)
Definition shuffled_schema : json :=
  JObj [("dataset",
         JObj [("fields",
                JArr [JObj [("name", JStr "dateparution")];
                      JObj [("label", JStr "no name here")];
                      JObj [("name", JStr "objet")];
                      JObj [("name", JStr "dateparution")]])])].

(** [c in s] for a character. *)
Fixpoint has_char (c : ascii) (s : string) : bool :=
  match s with
  | EmptyString => false
  | String d r => Ascii.eqb d c || has_char c r
  end.

(** What [quote_plus] writes for one byte. *)
Definition quoted_byte (c : ascii) : string :=
  let n := N_of_ascii c in
  if Url.always_safe c then String c EmptyString
  else if (n =? 32)%N then "+"
  else String "%" (String (Url.hex_upper (n / 16))
                     (String (Url.hex_upper (n mod 16)) EmptyString)).

Definition with_sort (o : option string) (a : search_args) : search_args :=
  {| a_q := a_q a; a_cpv_prefix := a_cpv_prefix a; a_dept_codes := a_dept_codes a;
     a_buyer := a_buyer a; a_date_from := a_date_from a; a_date_to := a_date_to a;
     a_nature_in := a_nature_in a; a_use_training := a_use_training a;
     a_page := a_page a; a_page_size := a_page_size a; a_sort := o |}.

(** [nature_in or []] and [sort or ""], as the cache key has them. *)
Definition nature_or_empty (o : option (list string)) : list string :=
  if list_truthy o then opt_list o else [].

Definition sort_or_empty (o : option string) : string :=
  match o with
  | Some s => if Py.nonempty s then s else EmptyString
  | None => EmptyString
  end.

(** The catalog answers, Explore answers a JSON array. *)
Definition explore_answers_array : env :=
  {| cfg := sample_cfg;
     request_accepts := fun _ => true;
     urlopen := fun n _ _ =>
                  match n with
                  | O => Fetched sample_schema
                  | _ => Fetched (JArr [JObj [("objet", JStr "Formation bureautique")]])
                  end;
     time := sample_clock |}.

(** The catalog answers once, then fails; the clock reads 1000, 1010, ... *)
Definition catalog_down_later : env :=
  {| cfg := sample_cfg;
     request_accepts := fun _ => true;
     urlopen := fun n _ _ =>
                  match n with
                  | O => Fetched sample_schema
                  | _ => Failed URLError false
                  end;
     time := fun n => 1000 + 10 * Z.of_nat n |}.

(* ===================================================================== *)
(** * Properties *)
(* ===================================================================== *)

(* --------------------------------------------------------------------- *)
(** ** Field resolver *)
(* --------------------------------------------------------------------- *)

Lemma name_in_occurs c names : name_in c names = true ↔ occurs c names.
Proof.
  unfold name_in, occurs. rewrite existsb_exists. split.
  - intros [j [Hj Heq]]. destruct j; try discriminate.
    apply String.eqb_eq in Heq. now subst.
  - intros H. exists (JStr c). split; [assumption | apply String.eqb_refl].
Qed.


Lemma pick_nonempty names cands fallback :
  forallb Py.nonempty cands = true → Py.nonempty fallback = true →
  Py.nonempty (pick names cands fallback) = true.
Proof.
  intros Hc Hf. induction cands as [|c r IH]; simpl in *; [assumption |].
  apply andb_prop in Hc as [Hc Hr].
  destruct (name_in c names); auto.
Qed.




Lemma nonempty_neq s : Py.nonempty s = true → s ≠ EmptyString.
Proof. intros H ->. discriminate H. Qed.

(** C8. For every schema value, each of the sixteen slots of
    [resolve_fields schema] holds a non-empty string. *)
Theorem resolve_fields_slots_nonempty (schema : json) :
  all_slots_nonempty (resolve_fields schema).
Proof.
  unfold all_slots_nonempty.
  repeat split; apply nonempty_neq; unfold resolve_fields;
    cbn [date title url cpv dept buyer description ref serviceCategory nature
         deadline buyerAddress budget procedure marketType place];
    apply pick_nonempty; reflexivity.
Qed.

(* --------------------------------------------------------------------- *)
(** ** Record URL normaliser *)
(* --------------------------------------------------------------------- *)

Section NormalizerProperties.

Variable urlparse_hostname : string → option (option string).
Variable urljoin : string → string → option string.

(** Where the detail page is returned.  When the host of the base URL
    ends with "boamp.fr" and a reference is available, the result is
    [{base}/avis/detail/{ref}] (base without trailing slashes) as soon as
    the raw URL is absent, resolves to the base followed by one slash, or
    resolves to a URL containing "/pages/entreprise-accueil".  With no raw
    URL, no record id and no reference the result is the bare base URL. *)
Theorem normalize_record_url_detail
    (base dataset_id : string) (raw_url reference record_id : option string) :
  let b := Py.rstrip_slash base in
  let out := _normalize_record_url urlparse_hostname urljoin base dataset_id
               raw_url reference record_id in
  (∀ h r,
      urlparse_hostname b = Some (Some h) →
      Py.endswith h "boamp.fr" = true →
      reference = Some r → r ≠ EmptyString →
      (Py.opt_truthy raw_url = false
       ∨ ∃ raw href,
           raw_url = Some raw ∧ urljoin (b +:+ "/") raw = Some href
           ∧ (href = b +:+ "/"
              ∨ Py.contains "/pages/entreprise-accueil" href = true)) →
      out = b +:+ "/avis/detail/" +:+ r)
  ∧ (Py.opt_truthy raw_url = false → Py.opt_truthy record_id = false →
     Py.opt_truthy reference = false → out = b).
Proof.
  intros b out. subst out. unfold _normalize_record_url. fold b. split.
  - intros h r Hhost Hend -> Hr Hraw.
    rewrite Hhost, Hend.
    assert (Hne : Py.nonempty r = true) by (destruct r; [congruence | reflexivity]).
    rewrite Hne. cbn [andb].
    destruct Hraw as [Habs | (raw & href & -> & Hjoin & Hhref)].
    + destruct raw_url as [raw|]; [| reflexivity].
      simpl in Habs. now rewrite Habs.
    + rewrite Hjoin. destruct (Py.nonempty raw); cbn [negb]; [| reflexivity].
      destruct Hhref as [-> | Hland].
      * rewrite bool_decide_eq_true_2 by reflexivity. reflexivity.
      * rewrite Hland, orb_true_r. reflexivity.
  - intros Hraw Hid Href.
    assert (Hrec : match record_id with
                   | Some rid =>
                       if Py.nonempty rid
                       then b +:+ "/explore/dataset/" +:+ dataset_id +:+ "/record/?id="
                              +:+ default EmptyString
                                    (Py.split_on "=" (Url.urlencode [("id", rid)]) !! 1%nat)
                       else b
                   | None => b
                   end = b).
    { destruct record_id as [rid|]; [| reflexivity].
      simpl in Hid. now rewrite Hid. }
    rewrite Hrec.
    assert (Hdet : match reference with
                   | Some r =>
                       if Py.endswith
                            match urlparse_hostname b with
                            | Some (Some h) => h
                            | _ => EmptyString
                            end "boamp.fr" && Py.nonempty r
                       then b +:+ "/avis/detail/" +:+ r
                       else b
                   | None => b
                   end = b).
    { destruct reference as [r|]; [| reflexivity].
      simpl in Href. now rewrite Href, andb_false_r. }
    rewrite Hdet.
    destruct raw_url as [raw|]; [| reflexivity].
    simpl in Hraw. now rewrite Hraw.
Qed.

End NormalizerProperties.

(** The three cases on concrete URLs. *)
Lemma normalize_record_url_detail_witness :
  _normalize_record_url sample_hostname sample_urljoin "https://www.boamp.fr/" "boamp"
    None (Some "24-12345") (Some "abc")
  = "https://www.boamp.fr/avis/detail/24-12345"
  ∧ _normalize_record_url sample_hostname sample_urljoin "https://www.boamp.fr" "boamp"
      (Some "/pages/entreprise-accueil/") (Some "24-12345") None
    = "https://www.boamp.fr/avis/detail/24-12345"
  ∧ _normalize_record_url sample_hostname sample_urljoin
      "https://boamp-datadila.opendatasoft.com/" "boamp" None None None
    = "https://boamp-datadila.opendatasoft.com".
Proof.
  split; [| split].
  - apply (proj1 (normalize_record_url_detail sample_hostname sample_urljoin
                    "https://www.boamp.fr/" "boamp" None (Some "24-12345") (Some "abc"))
             "www.boamp.fr" "24-12345"); try reflexivity.
    + discriminate.
    + left. reflexivity.
  - apply (proj1 (normalize_record_url_detail sample_hostname sample_urljoin
                    "https://www.boamp.fr" "boamp" (Some "/pages/entreprise-accueil/")
                    (Some "24-12345") None)
             "www.boamp.fr" "24-12345"); try reflexivity.
    + discriminate.
    + right. exists "/pages/entreprise-accueil/",
        "https://www.boamp.fr/pages/entreprise-accueil/".
      repeat split. right. reflexivity.
  - apply (proj2 (normalize_record_url_detail sample_hostname sample_urljoin
                    "https://boamp-datadila.opendatasoft.com/" "boamp" None None None));
      reflexivity.
Defined.

Lemma append_neq_self (b s : string) : s ≠ EmptyString → b +:+ s ≠ b.
Proof.
  intros Hs. induction b as [| c b IH].
  - exact Hs.
  - change (String c (b +:+ s) ≠ String c b). intros H. apply IH. now inversion H.
Qed.

(** C9.  A raw URL that is the portal root written without its trailing
    slash, that is the base itself, is not recognised as the portal
    root: [urljoin] returns it as it is, the test compares with the base
    followed by a slash, and the raw URL is returned, whatever the host
    and the reference; in particular the result is not
    [{base}/avis/detail/{ref}]. *)
Theorem normalize_record_url_root_without_slash
    (urlparse_hostname : string → option (option string))
    (urljoin : string → string → option string)
    (base dataset_id : string) (reference record_id : option string) :
  let b := Py.rstrip_slash base in
  Py.nonempty b = true →
  Py.contains "/pages/entreprise-accueil" b = false →
  urljoin (b +:+ "/") b = Some b →
  _normalize_record_url urlparse_hostname urljoin base dataset_id
    (Some b) reference record_id = b
  ∧ ∀ r, _normalize_record_url urlparse_hostname urljoin base dataset_id
           (Some b) reference record_id ≠ b +:+ "/avis/detail/" +:+ r.
Proof.
  intros b Hne Hland Hjoin.
  assert (Hout : _normalize_record_url urlparse_hostname urljoin base dataset_id
                   (Some b) reference record_id = b).
  { unfold _normalize_record_url. fold b. rewrite Hne, Hjoin, Hland. cbn [negb].
    rewrite bool_decide_eq_false_2; [reflexivity |].
    intros H. symmetry in H. revert H. apply append_neq_self. discriminate. }
  split; [exact Hout |].
  intros r. rewrite Hout. intros H. symmetry in H. revert H.
  apply append_neq_self. discriminate.
Qed.

(** The portal is www.boamp.fr, the reference 24-12345, and the record
    carries the URL of the portal root without trailing slash: that URL
    is returned, not the detail page. *)
Lemma normalize_record_url_root_without_slash_witness :
  sample_hostname "https://www.boamp.fr" = Some (Some "www.boamp.fr")
  ∧ Py.endswith "www.boamp.fr" "boamp.fr" = true
  ∧ _normalize_record_url sample_hostname absolute_urljoin "https://www.boamp.fr" "boamp"
      (Some "https://www.boamp.fr") (Some "24-12345") None
    = "https://www.boamp.fr"
  ∧ _normalize_record_url sample_hostname absolute_urljoin "https://www.boamp.fr" "boamp"
      (Some "https://www.boamp.fr") (Some "24-12345") None
    ≠ "https://www.boamp.fr/avis/detail/24-12345".
Proof.
  destruct (normalize_record_url_root_without_slash sample_hostname absolute_urljoin
              "https://www.boamp.fr" "boamp" (Some "24-12345") None
              eq_refl eq_refl eq_refl) as [Hout Hnot].
  split; [reflexivity | split; [reflexivity | split]].
  - exact Hout.
  - exact (Hnot "24-12345").
Defined.

(* --------------------------------------------------------------------- *)
(** ** Schema store *)
(* --------------------------------------------------------------------- *)

Section StoreProperties.

Variable E : env.

(** [_http_get_json] touches nothing but the trace of requests. *)
Lemma http_get_json_frame u w out w' :
  _http_get_json E u w = (out, w') →
  schema_value w' = schema_value w ∧ schema_ts w' = schema_ts w
  ∧ results_cache w' = results_cache w ∧ clock_reads w' = clock_reads w.
Proof.
  unfold _http_get_json, send. intros H.
  destruct (request_accepts E u); cbn [negb] in H;
    [| inversion H; subst; now cbn].
  destruct (urlopen E (length (requests w)) u (ALLOW_INSECURE_SSL (cfg E)))
    as [j | e c].
  - inversion H; subst. now cbn.
  - destruct (negb (ALLOW_INSECURE_SSL (cfg E)) && AUTO_FALLBACK_INSECURE_SSL (cfg E) && c).
    + cbn in H.
      destruct (urlopen E _ u true) as [j | e2 c2]; inversion H; subst; now cbn.
    + inversion H; subst. now cbn.
Qed.

Lemma fetch_dataset_schema_cached force w :
  schema_cache_serves E force w = true →
  fetch_dataset_schema E force w = (Ok (schema_value w), tick w).
Proof.
  unfold schema_cache_serves, fetch_dataset_schema, bind, read_clock.
  cbn. intros ->. reflexivity.
Qed.

Lemma fetch_dataset_schema_fetches force w :
  schema_cache_serves E force w = false →
  fetch_dataset_schema E force w =
    match _http_get_json E (schema_url E) (tick w) with
    | (Ok schema, w1) =>
        (Ok schema, set_schema schema (time E (clock_reads w)) w1)
    | (Raise e, w1) => (Raise e, w1)
    end.
Proof.
  unfold schema_cache_serves, fetch_dataset_schema, bind, read_clock.
  cbn. intros ->.
  destruct (_http_get_json E (schema_url E) (tick w)) as [[schema | e] w1];
    reflexivity.
Qed.

(** C10. When [fetch_dataset_schema] has to fetch and [_http_get_json]
    raises [e], the call raises [e]; [_SCHEMA_CACHE] keeps its value and
    its timestamp.  In any later state with that same cache content, a
    non-forced call made while the snapshot is true and younger than the
    TTL returns the snapshot and sends no request. *)
Theorem fetch_dataset_schema_failure_keeps_cache
    (force_refresh : bool) (w w' : world) (e : exn) :
  schema_cache_serves E force_refresh w = false →
  _http_get_json E (schema_url E) (tick w) = (Raise e, w') →
  fetch_dataset_schema E force_refresh w = (Raise e, w')
  ∧ schema_value w' = schema_value w
  ∧ schema_ts w' = schema_ts w
  ∧ ∀ later,
      schema_value later = schema_value w' → schema_ts later = schema_ts w' →
      Json.truthy (schema_value w) = true →
      (time E (clock_reads later) - schema_ts w < _SCHEMA_TTL_SECONDS)%Z →
      fetch_dataset_schema E false later = (Ok (schema_value w), tick later)
      ∧ requests (tick later) = requests later.
Proof.
  intros Hmiss Hfail.
  destruct (http_get_json_frame _ _ _ _ Hfail) as (Hv & Hts & _ & _).
  cbn in Hv, Hts. split; [| split; [| split]]; try assumption.
  - rewrite (fetch_dataset_schema_fetches _ _ Hmiss), Hfail. reflexivity.
  - intros later Hlv Hlts Htrue Hfresh. split; [| reflexivity].
    rewrite <- Hv, <- Hlv. apply fetch_dataset_schema_cached.
    unfold schema_cache_serves. rewrite Hlv, Hv, Htrue. cbn.
    apply Z.ltb_lt. rewrite Hlts, Hts. assumption.
Qed.

End StoreProperties.

(** On [catalog_down] a forced refresh fails with 503, the snapshot stays,
    and the next plain call returns it. *)
Lemma fetch_dataset_schema_failure_keeps_cache_witness :
  fetch_dataset_schema catalog_down true after_first_fetch
  = (Raise (HTTPError 503),
     snd (fetch_dataset_schema catalog_down true after_first_fetch))
  ∧ schema_value (snd (fetch_dataset_schema catalog_down true after_first_fetch))
    = sample_schema
  ∧ fst (fetch_dataset_schema catalog_down false
           (snd (fetch_dataset_schema catalog_down true after_first_fetch)))
    = Ok sample_schema.
Proof.
  pose proof (fetch_dataset_schema_failure_keeps_cache catalog_down true
                after_first_fetch
                (snd (fetch_dataset_schema catalog_down true after_first_fetch))
                (HTTPError 503) eq_refl eq_refl) as (Hraise & Hval & _ & Hlater).
  split; [exact Hraise | split].
  - rewrite Hval. reflexivity.
  - rewrite (proj1 (Hlater _ eq_refl eq_refl eq_refl eq_refl)). reflexivity.
Defined.

(* --------------------------------------------------------------------- *)
(** ** Result cache *)
(* --------------------------------------------------------------------- *)

Section CacheProperties.

Variable E : env.

Lemma cache_get_fresh key w entry :
  results_cache w !! key = Some entry →
  (time E (clock_reads w) - ce_ts entry ≤ RESULTS_CACHE_TTL_SECONDS (cfg E))%Z →
  _cache_get E key w = (Ok (Some (ce_value entry)), tick w).
Proof.
  intros Hlook Hage. unfold _cache_get. rewrite Hlook. cbn zeta.
  destruct (Z.gtb_spec (time E (clock_reads w) - ce_ts entry)
              (RESULTS_CACHE_TTL_SECONDS (cfg E))) as [Hgt | _]; [| reflexivity].
  exfalso. apply (Z.lt_irrefl (RESULTS_CACHE_TTL_SECONDS (cfg E))).
  eapply Z.lt_le_trans; eassumption.
Qed.

Lemma cache_get_expired key w entry :
  results_cache w !! key = Some entry →
  (time E (clock_reads w) - ce_ts entry > RESULTS_CACHE_TTL_SECONDS (cfg E))%Z →
  _cache_get E key w
  = (Ok None, set_results (delete key (results_cache w)) (tick w)).
Proof.
  intros Hlook Hage. unfold _cache_get. rewrite Hlook. cbn zeta.
  destruct (Z.gtb_spec (time E (clock_reads w) - ce_ts entry)
              (RESULTS_CACHE_TTL_SECONDS (cfg E))) as [_ | Hle]; [reflexivity |].
  exfalso. apply Z.gt_lt in Hage. apply (Z.lt_irrefl (RESULTS_CACHE_TTL_SECONDS (cfg E))).
  eapply Z.lt_le_trans; eassumption.
Qed.

Lemma cache_set_lookup key value w :
  _cache_set E key value w
  = (Ok tt,
     set_results (<[key := {| ce_value := value; ce_ts := time E (clock_reads w) |}]>
                    (results_cache w)) (tick w)).
Proof. reflexivity. Qed.

(** C6. A lookup of an entry no older than the TTL returns the stored
    tuple, and [perform_search] returns that tuple without any request
    after the schema step (none at all when the schema cache serves).
    A lookup of an entry older than the TTL removes it and reports a
    miss.  [_cache_set] stores the value under the key whatever was
    there before. *)
Theorem result_cache_contract (key : string) :
  (∀ w entry,
      results_cache w !! key = Some entry →
      (time E (clock_reads w) - ce_ts entry ≤ RESULTS_CACHE_TTL_SECONDS (cfg E))%Z →
      _cache_get E key w = (Ok (Some (ce_value entry)), tick w))
  ∧ (∀ a w0 schema w1 entry,
        fetch_dataset_schema E false w0 = (Ok schema, w1) →
        key = cache_key E a (resolve_fields schema) →
        results_cache w1 !! key = Some entry →
        (time E (clock_reads w1) - ce_ts entry ≤ RESULTS_CACHE_TTL_SECONDS (cfg E))%Z →
        perform_search E a w0 = (Ok (ce_value entry), tick w1)
        ∧ requests (tick w1) = requests w1
        ∧ (schema_cache_serves E false w0 = true →
           requests (tick w1) = requests w0))
  ∧ (∀ w entry,
        results_cache w !! key = Some entry →
        (time E (clock_reads w) - ce_ts entry > RESULTS_CACHE_TTL_SECONDS (cfg E))%Z →
        ∃ w', _cache_get E key w = (Ok None, w') ∧ results_cache w' !! key = None)
  ∧ (∀ w value,
        ∃ w', _cache_set E key value w = (Ok tt, w')
              ∧ results_cache w' !! key
                = Some {| ce_value := value; ce_ts := time E (clock_reads w) |}).
Proof.
  split; [| split; [| split]].
  - intros w entry. apply cache_get_fresh.
  - intros a w0 schema w1 entry Hfetch -> Hlook Hage.
    split; [| split].
    + unfold perform_search, bind. rewrite Hfetch.
      rewrite (cache_get_fresh _ _ _ Hlook Hage). reflexivity.
    + reflexivity.
    + intros Hserve. rewrite (fetch_dataset_schema_cached _ _ _ Hserve) in Hfetch.
      inversion Hfetch; subst. reflexivity.
  - intros w entry Hlook Hage. eexists. split.
    + apply (cache_get_expired _ _ _ Hlook Hage).
    + cbn. apply lookup_delete_eq.
  - intros w value. eexists. split.
    + apply cache_set_lookup.
    + cbn. apply lookup_insert_eq.
Qed.

End CacheProperties.

(* --------------------------------------------------------------------- *)
(** ** Search orchestrator *)
(* --------------------------------------------------------------------- *)

Lemma attempts_app u l1 l2 :
  attempts u (l1 ++ l2)%list = (attempts u l1 + attempts u l2)%nat.
Proof. unfold attempts. now rewrite filter_app, length_app. Qed.

Lemma attempts_first u v unverified sent :
  attempts v [{| rq_url := u; rq_unverified := unverified; rq_retry := false;
                 rq_sent := sent |}]
  = if decide (u = v) then 1%nat else 0%nat.
Proof.
  unfold attempts. cbn. destruct (decide (u = v)) as [-> | Hne].
  - rewrite decide_True by (split; reflexivity). reflexivity.
  - rewrite decide_False by (intros [? _]; contradiction). reflexivity.
Qed.

Lemma attempts_retry u v unverified sent :
  attempts v [{| rq_url := u; rq_unverified := unverified; rq_retry := true;
                 rq_sent := sent |}] = 0%nat.
Proof.
  unfold attempts. cbn.
  rewrite decide_False by (intros [_ ?]; discriminate). reflexivity.
Qed.

Section OrchestratorProperties.

Variable E : env.

Lemma http_get_json_attempts u v w out w' :
  _http_get_json E u w = (out, w') →
  attempts v (requests w')
  = (attempts v (requests w) + if decide (u = v) then 1 else 0)%nat.
Proof.
  unfold _http_get_json, send, refused. intros H.
  destruct (request_accepts E u); cbn [negb] in H;
    [| inversion H; subst; cbn [requests log_request];
       now rewrite attempts_app, attempts_first].
  destruct (urlopen E (length (requests w)) u (ALLOW_INSECURE_SSL (cfg E)))
    as [j | e c].
  - inversion H; subst. cbn [requests log_request].
    now rewrite attempts_app, attempts_first.
  - destruct (negb (ALLOW_INSECURE_SSL (cfg E)) && AUTO_FALLBACK_INSECURE_SSL (cfg E) && c).
    + cbn [requests log_request] in H.
      destruct (urlopen E _ u true) as [j | e2 c2]; inversion H; subst;
        cbn [requests log_request];
        rewrite !attempts_app, attempts_first, attempts_retry; apply Nat.add_0_r.
    + inversion H; subst. cbn [requests log_request].
      now rewrite attempts_app, attempts_first.
Qed.

Lemma records_of_pure data key w out w' :
  records_of data key w = (out, w') → w' = w.
Proof.
  unfold records_of. intros H.
  destruct (Json.get data key JNull) as [v |]; [| inversion H; reflexivity].
  destruct (Json.iterate (Json.or_else v (JArr []))); inversion H; reflexivity.
Qed.

Lemma run_explore_attempts a fields v w out w' :
  run_explore E a fields w = (out, w') →
  attempts v (requests w')
  = (attempts v (requests w)
     + if decide (explore_url_sent E a fields = v) then 1 else 0)%nat.
Proof.
  unfold run_explore, _try_explore, bind. fold (explore_url_sent E a fields).
  destruct (_http_get_json E (explore_url_sent E a fields) w) as [[data | e] w1] eqn:Hget;
    intros H.
  - destruct (records_of data "results" w1) as [[recs | e] w2] eqn:Hrec;
      apply records_of_pure in Hrec; inversion H; subst;
      apply (http_get_json_attempts _ _ _ _ _ Hget).
  - inversion H; subst. apply (http_get_json_attempts _ _ _ _ _ Hget).
Qed.

Lemma run_records_v1_attempts a fields v w out w' :
  run_records_v1 E a fields w = (out, w') →
  attempts v (requests w')
  = (attempts v (requests w)
     + if decide (records_v1_url_sent E a fields = v) then 1 else 0)%nat.
Proof.
  unfold run_records_v1, _try_records_v1, bind. fold (records_v1_url_sent E a fields).
  destruct (_http_get_json E (records_v1_url_sent E a fields) w) as [[data | e] w1] eqn:Hget;
    intros H.
  - destruct (records_of data "records" w1) as [[recs | e] w2] eqn:Hrec;
      apply records_of_pure in Hrec; inversion H; subst;
      apply (http_get_json_attempts _ _ _ _ _ Hget).
  - inversion H; subst. apply (http_get_json_attempts _ _ _ _ _ Hget).
Qed.

(** [cached_call] after the dialect call: the result is stored under the
    key and returned; a failure passes through. *)
Lemma cached_call_eq key m w :
  cached_call E key m w
  = match m w with
    | (Ok res, w1) =>
        (Ok res,
         set_results (<[key := {| ce_value := res; ce_ts := time E (clock_reads w1) |}]>
                        (results_cache w1)) (tick w1))
    | (Raise e, w1) => (Raise e, w1)
    end.
Proof.
  unfold cached_call, bind. destruct (m w) as [[res | e] w1]; reflexivity.
Qed.

(** The two dialects are queried at different addresses. *)
Lemma explore_url_not_records_v1 a fields :
  explore_url_sent E a fields ≠ records_v1_url_sent E a fields.
Proof.
  unfold explore_url_sent, records_v1_url_sent, build_explore_url, build_records_v1_url.
  intros H. apply String.app_inj in H. discriminate H.
Qed.

Lemma fetch_dataset_schema_attempts force v w out w' :
  fetch_dataset_schema E force w = (out, w') →
  attempts v (requests w')
  = (attempts v (requests w)
     + if schema_cache_serves E force w then 0
       else if decide (schema_url E = v) then 1 else 0)%nat.
Proof.
  intros H. destruct (schema_cache_serves E force w) eqn:Hs.
  - rewrite (fetch_dataset_schema_cached _ _ _ Hs) in H. inversion H; subst.
    cbn. now rewrite Nat.add_0_r.
  - rewrite (fetch_dataset_schema_fetches _ _ _ Hs) in H.
    destruct (_http_get_json E (schema_url E) (tick w)) as [[schema | e] w1] eqn:Hget;
      inversion H; subst; apply (http_get_json_attempts _ _ _ _ _ Hget).
Qed.

Lemma append_assoc (x y z : string) : (x +:+ y) +:+ z = x +:+ (y +:+ z).
Proof.
  induction x as [|c x IH]; [reflexivity |].
  change (String c ((x +:+ y) +:+ z) = String c (x +:+ (y +:+ z))).
  f_equal. exact IH.
Qed.

Lemma schema_url_not_records_v1 a fields :
  schema_url E ≠ records_v1_url_sent E a fields.
Proof.
  unfold schema_url, records_v1_url_sent, build_records_v1_url.
  destruct (ODS_APIKEY (cfg E)) as [k |]; [destruct (Py.nonempty k) |];
    rewrite ?append_assoc; intros H; apply String.app_inj in H; discriminate H.
Qed.

Lemma schema_url_not_explore a fields :
  schema_url E ≠ explore_url_sent E a fields.
Proof.
  unfold schema_url, explore_url_sent, build_explore_url.
  destruct (ODS_APIKEY (cfg E)) as [k |]; [destruct (Py.nonempty k) |];
    rewrite ?append_assoc; intros H; apply String.app_inj in H; discriminate H.
Qed.

Lemma cache_get_requests key w out w' :
  _cache_get E key w = (out, w') → requests w' = requests w.
Proof.
  unfold _cache_get. intros H. destruct (results_cache w !! key) as [entry |].
  - cbn zeta in H.
    destruct (time E (clock_reads w) - ce_ts entry >? RESULTS_CACHE_TTL_SECONDS (cfg E))%Z;
      inversion H; reflexivity.
  - inversion H; reflexivity.
Qed.

(** Requests to [v] sent between the start of [perform_search] and the
    moment the result cache reported a miss: none, for either query
    address. *)
Lemma prologue_attempts a fields v w0 w1 w2 schema out :
  v = records_v1_url_sent E a fields ∨ v = explore_url_sent E a fields →
  fetch_dataset_schema E false w0 = (Ok schema, w1) →
  _cache_get E (cache_key E a fields) w1 = (out, w2) →
  attempts v (requests w2) = attempts v (requests w0).
Proof.
  intros Hv Hfetch Hget.
  rewrite (cache_get_requests _ _ _ _ Hget).
  rewrite (fetch_dataset_schema_attempts _ v _ _ _ Hfetch).
  destruct (schema_cache_serves E false w0); [apply Nat.add_0_r |].
  rewrite decide_False; [apply Nat.add_0_r |].
  destruct Hv as [-> | ->];
    [apply schema_url_not_records_v1 | apply schema_url_not_explore].
Qed.

(** X22. The Explore-first branch, by exception class.  With Explore
    preferred and a miss in the result cache, the Records v1 query is
    requested once more than before exactly when the Explore call fails
    with an HTTP status in 400..499, a [URLError] or a [JSONDecodeError],
    and not at all otherwise: not after a [TimeoutError] or a
    [UnicodeDecodeError] in particular.  An [HTTPError] with
    status 500 or more is raised to the caller as it is, the world left
    as the Explore call left it.  When the Records v1 call made after
    such a failure succeeds, its result is stored under the cache key and
    returned. *)
Theorem perform_search_explore_first
    (a : search_args) (w0 w1 w2 w3 : world) (schema : json)
    (r : result search_result) :
  let fields := resolve_fields schema in
  let key := cache_key E a fields in
  let v1 := records_v1_url_sent E a fields in
  PREFER_EXPLORE (cfg E) = true →
  fetch_dataset_schema E false w0 = (Ok schema, w1) →
  _cache_get E key w1 = (Ok None, w2) →
  run_explore E a fields w2 = (r, w3) →
  ∃ out wf,
    perform_search E a w0 = (out, wf)
    ∧ attempts v1 (requests wf)
      = (attempts v1 (requests w0)
         + if fails_with explore_failure_falls_back r then 1 else 0)%nat
    ∧ (attempts v1 (requests wf) = S (attempts v1 (requests w0))
       ↔ ∃ e, r = Raise e ∧ explore_failure_falls_back e = true)
    ∧ (∀ code, r = Raise (HTTPError code) → (500 ≤ code)%Z →
               out = Raise (HTTPError code) ∧ wf = w3)
    ∧ (∀ e res w4,
          r = Raise e → explore_failure_falls_back e = true →
          run_records_v1 E a fields w3 = (Ok res, w4) →
          out = Ok res
          ∧ results_cache wf !! key
            = Some {| ce_value := res; ce_ts := time E (clock_reads w4) |})
    ∧ (∀ e, r = Raise e → explore_failure_falls_back e = false →
            out = Raise e ∧ wf = w3).
Proof.
  intros fields key v1 Hpref Hfetch Hget Hrun.
  pose proof (prologue_attempts a fields v1 _ _ _ _ _ (or_introl eq_refl) Hfetch Hget)
    as Hpro.
  pose proof (run_explore_attempts _ _ v1 _ _ _ Hrun) as Hexp.
  rewrite decide_False in Hexp by apply explore_url_not_records_v1.
  rewrite Nat.add_0_r, Hpro in Hexp.
  assert (Hsearch : perform_search E a w0 =
            match r with
            | Ok res => cached_call E key (fun _ => (Ok res, w3)) w2
            | Raise e =>
                if explore_failure_falls_back e
                then cached_call E key (run_records_v1 E a fields) w3
                else (Raise e, w3)
            end).
  { unfold perform_search, bind. rewrite Hfetch. fold fields key. rewrite Hget, Hpref.
    unfold try_catch. rewrite (cached_call_eq key (run_explore E a fields)), Hrun.
    destruct r as [res | e]; [now rewrite cached_call_eq |].
    destruct e as [code | | | | |]; cbn [explore_failure_falls_back]; try reflexivity.
    destruct ((400 <=? code)%Z && (code <=? 499)%Z); reflexivity. }
  destruct (perform_search E a w0) as [out wf] eqn:Hps.
  exists out, wf. split; [reflexivity |].
  assert (Hcount : attempts v1 (requests wf)
                   = (attempts v1 (requests w0)
                      + if fails_with explore_failure_falls_back r then 1 else 0)%nat).
  { destruct r as [res | e]; cbn [fails_with].
    - rewrite cached_call_eq in Hsearch. inversion Hsearch; subst.
      cbn [requests set_results tick]. now rewrite Hexp, Nat.add_0_r.
    - destruct (explore_failure_falls_back e).
      + rewrite cached_call_eq in Hsearch.
        destruct (run_records_v1 E a fields w3) as [[res | e'] w4] eqn:Hv1;
          pose proof (run_records_v1_attempts _ _ v1 _ _ _ Hv1) as Hc;
          rewrite decide_True in Hc by reflexivity;
          inversion Hsearch; subst; cbn [requests set_results tick];
          now rewrite Hc, Hexp.
      + inversion Hsearch; subst. now rewrite Hexp, Nat.add_0_r. }
  split; [exact Hcount | split; [| split; [| split]]].
  - rewrite Hcount. split.
    + intros Heq. destruct r as [res | e]; cbn [fails_with] in Heq.
      * rewrite Nat.add_0_r in Heq. exfalso. eapply Nat.neq_succ_diag_r; eauto.
      * exists e. split; [reflexivity |].
        destruct (explore_failure_falls_back e); [reflexivity |].
        rewrite Nat.add_0_r in Heq. exfalso. eapply Nat.neq_succ_diag_r; eauto.
    + intros (e & -> & He). cbn [fails_with]. rewrite He. apply Nat.add_1_r.
  - intros code -> Hcode. cbn [explore_failure_falls_back] in Hsearch.
    replace (code <=? 499)%Z with false in Hsearch.
    + rewrite andb_false_r in Hsearch. inversion Hsearch; subst. now split.
    + symmetry. apply Z.leb_gt. eapply Z.lt_le_trans; [| exact Hcode]. reflexivity.
  - intros e res w4 -> He Hv1. rewrite He, cached_call_eq, Hv1 in Hsearch.
    inversion Hsearch; subst. split; [reflexivity |].
    cbn [results_cache set_results]. apply lookup_insert_eq.
  - intros e -> He. rewrite He in Hsearch. inversion Hsearch; subst. now split.
Qed.

(** X23. The Records v1 first branch, by exception class.  With Records v1
    preferred and a miss in the result cache, the Explore query is
    requested once more than before
    exactly when the Records v1 call fails with an [HTTPError] of any
    status (500 and above included), a [URLError] or a
    [JSONDecodeError]; the outcome is then that of the Explore call, its
    result stored under the cache key.  Any other exception is raised to
    the caller with no Explore request. *)
Theorem perform_search_records_v1_first
    (a : search_args) (w0 w1 w2 w3 : world) (schema : json)
    (r : result search_result) :
  let fields := resolve_fields schema in
  let key := cache_key E a fields in
  let ex := explore_url_sent E a fields in
  PREFER_EXPLORE (cfg E) = false →
  fetch_dataset_schema E false w0 = (Ok schema, w1) →
  _cache_get E key w1 = (Ok None, w2) →
  run_records_v1 E a fields w2 = (r, w3) →
  ∃ out wf,
    perform_search E a w0 = (out, wf)
    ∧ attempts ex (requests wf)
      = (attempts ex (requests w0)
         + if fails_with records_v1_failure_falls_back r then 1 else 0)%nat
    ∧ (∀ e, r = Raise e → records_v1_failure_falls_back e = true →
            (out, wf) = cached_call E key (run_explore E a fields) w3)
    ∧ (∀ code, r = Raise (HTTPError code) →
               attempts ex (requests wf) = S (attempts ex (requests w0)))
    ∧ (∀ e, r = Raise e → records_v1_failure_falls_back e = false →
            out = Raise e ∧ wf = w3).
Proof.
  intros fields key ex Hpref Hfetch Hget Hrun.
  pose proof (prologue_attempts a fields ex _ _ _ _ _ (or_intror eq_refl) Hfetch Hget)
    as Hpro.
  pose proof (run_records_v1_attempts _ _ ex _ _ _ Hrun) as Hv1.
  rewrite decide_False in Hv1
    by (intros Heq; symmetry in Heq; revert Heq; apply explore_url_not_records_v1).
  rewrite Nat.add_0_r, Hpro in Hv1.
  assert (Hsearch : perform_search E a w0 =
            match r with
            | Ok res => cached_call E key (fun _ => (Ok res, w3)) w2
            | Raise e =>
                if records_v1_failure_falls_back e
                then cached_call E key (run_explore E a fields) w3
                else (Raise e, w3)
            end).
  { unfold perform_search, bind. rewrite Hfetch. fold fields key. rewrite Hget, Hpref.
    unfold try_catch. rewrite (cached_call_eq key (run_records_v1 E a fields)), Hrun.
    destruct r as [res | e]; [now rewrite cached_call_eq |].
    destruct e; reflexivity. }
  destruct (perform_search E a w0) as [out wf] eqn:Hps.
  exists out, wf. split; [reflexivity |].
  assert (Hcount : attempts ex (requests wf)
                   = (attempts ex (requests w0)
                      + if fails_with records_v1_failure_falls_back r then 1 else 0)%nat).
  { destruct r as [res | e]; cbn [fails_with].
    - rewrite cached_call_eq in Hsearch. inversion Hsearch; subst.
      cbn [requests set_results tick]. now rewrite Hv1, Nat.add_0_r.
    - destruct (records_v1_failure_falls_back e).
      + rewrite cached_call_eq in Hsearch.
        destruct (run_explore E a fields w3) as [[res | e'] w4] eqn:Hex;
          pose proof (run_explore_attempts _ _ ex _ _ _ Hex) as Hc;
          rewrite decide_True in Hc by reflexivity;
          inversion Hsearch; subst; cbn [requests set_results tick];
          now rewrite Hc, Hv1.
      + inversion Hsearch; subst. now rewrite Hv1, Nat.add_0_r. }
  split; [exact Hcount | split; [| split]].
  - intros e -> He. now rewrite He in Hsearch.
  - intros code ->. rewrite Hcount. cbn. apply Nat.add_1_r.
  - intros e -> He. rewrite He in Hsearch. inversion Hsearch; subst. now split.
Qed.

End OrchestratorProperties.

(* --------------------------------------------------------------------- *)
(** ** Sample runs *)
(* --------------------------------------------------------------------- *)

(** Explore answers 404: one Records v1 request, whose result is
    returned.  Explore answers 503: no Records v1 request, the 503 is
    raised. *)
Lemma perform_search_explore_first_witness :
  attempts (records_v1_url_sent explore_rejects sample_args sample_fields)
    (requests (snd (perform_search explore_rejects sample_args initial_world)))
  = 1%nat
  ∧ fst (perform_search explore_rejects sample_args initial_world)
    = Ok {| sr_records := [JObj [("fields", JObj [("objet", JStr "Formation bureautique")])]];
            sr_total := JNum 1;
            sr_url := records_v1_url_sent explore_rejects sample_args sample_fields;
            sr_fields := sample_fields |}
  ∧ attempts (records_v1_url_sent explore_unavailable sample_args sample_fields)
      (requests (snd (perform_search explore_unavailable sample_args initial_world)))
    = 0%nat
  ∧ fst (perform_search explore_unavailable sample_args initial_world)
    = Raise (HTTPError 503).
Proof.
  destruct (perform_search_explore_first explore_unavailable sample_args initial_world
              (snd (fetch_dataset_schema explore_unavailable false initial_world))
              (after_lookup explore_unavailable)
              (snd (run_explore explore_unavailable sample_args sample_fields
                      (after_lookup explore_unavailable)))
              sample_schema (Raise (HTTPError 503)))
    as (out5 & wf5 & Hps5 & Hcount5 & _ & Hsurfaced & _ & _);
    [reflexivity | vm_compute; reflexivity | vm_compute; reflexivity
     | vm_compute; reflexivity |].
  destruct (perform_search_explore_first explore_rejects sample_args initial_world
              (snd (fetch_dataset_schema explore_rejects false initial_world))
              (after_lookup explore_rejects)
              (snd (run_explore explore_rejects sample_args sample_fields
                      (after_lookup explore_rejects)))
              sample_schema (Raise (HTTPError 404)))
    as (out & wf & Hps & Hcount & _ & _ & Hok & _);
    [reflexivity | vm_compute; reflexivity | vm_compute; reflexivity
     | vm_compute; reflexivity |].
  rewrite Hps, Hps5. cbn [fst snd]. unfold sample_fields.
  split; [| split; [| split]].
  - rewrite Hcount. reflexivity.
  - eapply Hok; [reflexivity | reflexivity | vm_compute; reflexivity].
  - rewrite Hcount5. reflexivity.
  - apply (Hsurfaced 503 eq_refl). vm_compute. discriminate.
Defined.

(** Records v1 preferred and answering 503: one Explore request. *)
Lemma perform_search_records_v1_first_witness :
  attempts (explore_url_sent records_v1_unavailable sample_args sample_fields)
    (requests (snd (perform_search records_v1_unavailable sample_args initial_world)))
  = 1%nat.
Proof.
  destruct (perform_search_records_v1_first records_v1_unavailable sample_args
              initial_world
              (snd (fetch_dataset_schema records_v1_unavailable false initial_world))
              (after_lookup records_v1_unavailable)
              (snd (run_records_v1 records_v1_unavailable sample_args sample_fields
                      (after_lookup records_v1_unavailable)))
              sample_schema (Raise (HTTPError 503)))
    as (out & wf & Hps & _ & _ & Hhttp & _);
    [reflexivity | vm_compute; reflexivity | vm_compute; reflexivity
     | vm_compute; reflexivity |].
  rewrite Hps. cbn [snd]. unfold sample_fields.
  rewrite (Hhttp 503 eq_refl). reflexivity.
Defined.

(** C2, at a failing input.  Records v1 is preferred and answers HTTP
    503: the error is not surfaced; the Explore query is sent once and
    its result is what the caller gets. *)
Theorem records_v1_503_not_surfaced :
  PREFER_EXPLORE (cfg records_v1_unavailable) = false
  ∧ fst (run_records_v1 records_v1_unavailable sample_args sample_fields
           (after_lookup records_v1_unavailable))
    = Raise (HTTPError 503)
  ∧ fst (perform_search records_v1_unavailable sample_args initial_world)
    ≠ Raise (HTTPError 503)
  ∧ attempts (explore_url_sent records_v1_unavailable sample_args sample_fields)
      (requests (snd (perform_search records_v1_unavailable sample_args initial_world)))
    = 1%nat
  ∧ fst (perform_search records_v1_unavailable sample_args initial_world)
    = Ok {| sr_records := [JObj [("objet", JStr "Formation bureautique")]];
            sr_total := JNum 1;
            sr_url := explore_url_sent records_v1_unavailable sample_args sample_fields;
            sr_fields := sample_fields |}.
Proof.
  split; [reflexivity | split; [vm_compute; reflexivity | split; [| split]]].
  - vm_compute. discriminate.
  - vm_compute. reflexivity.
  - vm_compute. reflexivity.
Qed.

(** C1, at a failing input.  Explore is preferred, its request is sent
    and the wait for the response runs into the timeout: the
    [TimeoutError] is raised to the caller; the trace holds the catalog
    request and the Explore request, and no Records v1 request, although
    Records v1 would have answered. *)
Theorem explore_timeout_no_fallback :
  PREFER_EXPLORE (cfg explore_times_out) = true
  ∧ fst (run_explore explore_times_out sample_args sample_fields
           (after_lookup explore_times_out))
    = Raise TimeoutError
  ∧ fst (perform_search explore_times_out sample_args initial_world)
    = Raise TimeoutError
  ∧ attempts (records_v1_url_sent explore_times_out sample_args sample_fields)
      (requests (snd (perform_search explore_times_out sample_args initial_world)))
    = 0%nat
  ∧ map rq_url (requests (snd (perform_search explore_times_out sample_args initial_world)))
    = [schema_url explore_times_out;
       explore_url_sent explore_times_out sample_args sample_fields]
  ∧ fst (run_records_v1 explore_times_out sample_args sample_fields
           (snd (perform_search explore_times_out sample_args initial_world)))
    = Ok {| sr_records :=
              [JObj [("fields", JObj [("objet", JStr "Formation bureautique")])]];
            sr_total := JNum 1;
            sr_url := records_v1_url_sent explore_times_out sample_args sample_fields;
            sr_fields := sample_fields |}.
Proof.
  split; [reflexivity |].
  repeat split; vm_compute; reflexivity.
Qed.

(** The same with a body that is not UTF-8: the [UnicodeDecodeError] is
    raised to the caller and no Records v1 request is sent. *)
Lemma explore_undecodable_body_no_fallback :
  fst (perform_search explore_body_not_utf8 sample_args initial_world)
  = Raise UnicodeDecodeError
  ∧ attempts (records_v1_url_sent explore_body_not_utf8 sample_args sample_fields)
      (requests (snd (perform_search explore_body_not_utf8 sample_args initial_world)))
    = 0%nat.
Proof. split; vm_compute; reflexivity. Qed.

(** A second identical search 20 clock units after the first is served
    from the cache without any request; ten clock readings later the
    entry is older than the TTL and the lookup removes it. *)
Lemma result_cache_contract_witness :
  perform_search portal_up sample_args after_first_search
  = (Ok sample_result, tick (tick after_first_search))
  ∧ requests (tick (tick after_first_search)) = requests after_first_search
  ∧ (∃ w', _cache_get portal_up (cache_key portal_up sample_args sample_fields)
             (Nat.iter 10 tick after_first_search) = (Ok None, w')
           ∧ results_cache w' !! cache_key portal_up sample_args sample_fields = None).
Proof.
  destruct (result_cache_contract portal_up (cache_key portal_up sample_args sample_fields))
    as (_ & Hhit & Hexpired & _).
  assert (Hserve : schema_cache_serves portal_up false after_first_search = true)
    by (vm_compute; reflexivity).
  assert (Hfetch : fetch_dataset_schema portal_up false after_first_search
                   = (Ok sample_schema, tick after_first_search)).
  { rewrite (fetch_dataset_schema_cached _ _ _ Hserve).
    replace (schema_value after_first_search) with sample_schema
      by (vm_compute; reflexivity).
    reflexivity. }
  destruct (Hhit sample_args after_first_search sample_schema (tick after_first_search)
              {| ce_value := sample_result; ce_ts := 110 |} Hfetch eq_refl)
    as (Hps & _ & Hreq); [vm_compute; reflexivity | vm_compute; discriminate |].
  split; [exact Hps | split; [exact (Hreq Hserve) |]].
  apply (Hexpired (Nat.iter 10 tick after_first_search)
           {| ce_value := sample_result; ce_ts := 110 |});
    vm_compute; reflexivity.
Defined.

(** The schema step comes before the lookup and has its own TTL: on
    [slow_afternoon] the second search is served from the result cache
    after one request, to the catalog. *)
Lemma cache_hit_after_catalog_refetch :
  let first := perform_search slow_afternoon sample_args
                 (snd (fetch_dataset_schema slow_afternoon false initial_world)) in
  let second := perform_search slow_afternoon sample_args (snd first) in
  fst second = fst first
  ∧ length (requests (snd first)) = 2%nat
  ∧ map rq_url (drop 2 (requests (snd second))) = [schema_url slow_afternoon].
Proof. repeat split; vm_compute; reflexivity. Qed.

(* --------------------------------------------------------------------- *)
(** ** Query builders *)
(* --------------------------------------------------------------------- *)

Lemma double_quotes_doubled s : quotes_doubled (Py.double_quotes s) = true.
Proof.
  induction s as [|c r IH]; [reflexivity |].
  cbn [Py.double_quotes]. destruct (Ascii.eqb c "'"%char) eqn:Hc.
  - cbn. exact IH.
  - cbn [quotes_doubled]. rewrite Hc. exact IH.
Qed.

(** C3, at a failing input.  A department code and a date bound holding a
    single quote reach the filter expression as they are, while the buyer
    name next to them has its quote doubled. *)
Theorem explore_where_departments_dates_not_escaped :
  explore_where EmptyString ["7'5"] (Some "Mairie d'Ivry") None None None
    (Some "2024-01-01' OR '1'='1") None sample_fields
  = ["(departement IN ('7'5'))";
     "string(acheteur) LIKE '%Mairie d''Ivry%'";
     "dateparution >= '2024-01-01' OR '1'='1'"]
  ∧ quotes_doubled (Py.double_quotes "7'5") = true
  ∧ quotes_doubled "7'5" = false.
Proof. repeat split. Qed.

(** Whatever sort the caller asked for, the URL [_try_explore] requests
    orders by the date field, descending. *)
Lemma explore_url_sent_order_by E a fields :
  explore_url_sent E a fields
  = build_explore_url (cfg E) (a_q a) (a_cpv_prefix a) (a_dept_codes a) (a_buyer a)
      (training_category (a_use_training a)) (training_whitelist (a_use_training a))
      (a_nature_in a) None (a_date_from a) (a_date_to a) (a_page a) (a_page_size a)
      fields
  ∧ explore_order_by (a_q a) None fields
    = "-" +:+ Py.str_or (date fields) "record_timestamp".
Proof. split; reflexivity. Qed.

(** C4, at a failing input.  The caller asks for [sort=deadline] and a
    deadline field is resolved: the builder's rule gives descending
    deadline, yet the URL requested orders by the date field. *)
Theorem explore_request_ignores_sort :
  a_sort sample_args = Some "deadline"
  ∧ explore_order_by (a_q sample_args) (a_sort sample_args) sample_fields
    = "-date_limite_remise_offres"
  ∧ map rq_url (requests (snd (perform_search portal_up sample_args initial_world)))
    = ["https://boamp-datadila.opendatasoft.com/api/v2/catalog/datasets/boamp";
       "https://boamp-datadila.opendatasoft.com/api/explore/v2.1/catalog/datasets/boamp/records?q=formation&where=%28departement+IN+%28%2792%27%2C%2775%27%29%29+AND+string%28nature%29+IN+%28%27AppelOffre%27%2C%27Attribution%27%29&order_by=-dateparution&limit=20&offset=0"].
Proof. split; [reflexivity | split; vm_compute; reflexivity]. Qed.

(* --------------------------------------------------------------------- *)
(** ** Cache key *)
(* --------------------------------------------------------------------- *)

Lemma sorted_permutation (l l' : list string) :
  l ≡ₚ l' → Py.sorted l = Py.sorted l'.
Proof.
  intros Hperm. unfold Py.sorted.
  apply (Sorted_unique String.le); try apply Sorted_merge_sort; try apply _.
  now rewrite !merge_sort_Permutation.
Qed.

(** The order of the department codes does not show in the cache key. *)
Lemma cache_key_dept_codes_order E a fields (l l' : list string) :
  l ≡ₚ l' →
  cache_key E (with_dept_codes l a) fields = cache_key E (with_dept_codes l' a) fields.
Proof.
  intros Hperm. unfold cache_key, cache_key_dict. cbn [with_dept_codes a_dept_codes
    a_q a_cpv_prefix a_buyer a_date_from a_date_to a_nature_in a_use_training
    a_page a_page_size a_sort].
  now rewrite (sorted_permutation _ _ Hperm).
Qed.

(** C5, at a failing input.  Two requests that differ only in the order
    of the nature values get different cache keys; the same exchange
    among the department codes leaves the key as it is. *)
Theorem cache_key_depends_on_nature_order :
  cache_key portal_up (with_nature_in (Some ["AppelOffre"; "Attribution"]) sample_args)
    sample_fields
  ≠ cache_key portal_up (with_nature_in (Some ["Attribution"; "AppelOffre"]) sample_args)
      sample_fields
  ∧ cache_key portal_up (with_dept_codes ["92"; "75"] sample_args) sample_fields
    = cache_key portal_up (with_dept_codes ["75"; "92"] sample_args) sample_fields.
Proof.
  split.
  - vm_compute. discriminate.
  - vm_compute. reflexivity.
Qed.


(* --------------------------------------------------------------------- *)
(** ** HTTP client *)
(* --------------------------------------------------------------------- *)

Section HttpProperties.

Variable E : env.

(** X1. A call of [_http_get_json] calls [urlopen] not at all, once or
    twice.  Not at all exactly when [Request] refuses the URL: the call
    then raises the [ValueError].  Otherwise the second [urlopen] is made
    exactly when the first failed with a certificate verification failure
    while [ALLOW_INSECURE_SSL] is off and [AUTO_FALLBACK_INSECURE_SSL] is
    on, and it is unverified; the outcome of the call is the outcome of
    the last [urlopen]. *)
Theorem http_get_json_requests (u : string) (w w' : world) (out : result json) :
  _http_get_json E u w = (out, w') →
  let answer (o : fetch_outcome) : result json :=
    match o with Fetched j => Ok j | Failed e _ => Raise e end in
  let first := urlopen E (length (requests w)) u (ALLOW_INSECURE_SSL (cfg E)) in
  let second := urlopen E (S (length (requests w))) u true in
  (request_accepts E u = false
   ∧ requests w' = (requests w ++ [refused u])%list
   ∧ out = Raise OtherError)
  ∨ (request_accepts E u = true
     ∧ (requests w' = (requests w ++ [first_request E u])%list ∧ out = answer first
        ∨ requests w' = (requests w ++ [first_request E u; retry_request u])%list
          ∧ out = answer second)
     ∧ (length (requests w') = S (S (length (requests w)))
        ↔ ∃ e, first = Failed e true
               ∧ ALLOW_INSECURE_SSL (cfg E) = false
               ∧ AUTO_FALLBACK_INSECURE_SSL (cfg E) = true)).
Proof.
  intros H answer first second. subst answer first second.
  unfold _http_get_json, send in H.
  destruct (request_accepts E u); cbn [negb] in H;
    [right; split; [reflexivity |]
    | left; inversion H; subst; cbn [requests log_request]; repeat split].
  destruct (urlopen E (length (requests w)) u (ALLOW_INSECURE_SSL (cfg E)))
    as [j | e c] eqn:Hfirst.
  - inversion H; subst. cbn [requests log_request]. split.
    + left. split; reflexivity.
    + rewrite length_app. cbn. split.
      * intros Hlen. exfalso. lia.
      * intros (e & He & _). discriminate He.
  - destruct (ALLOW_INSECURE_SSL (cfg E)) eqn:Hallow;
      destruct (AUTO_FALLBACK_INSECURE_SSL (cfg E)) eqn:Hauto;
      destruct c; cbn [negb andb] in H;
      try (inversion H; subst; cbn [requests log_request]; split;
           [left; split; [unfold first_request; now rewrite Hallow | reflexivity]
           | rewrite length_app; cbn; split;
             [intros Hlen; exfalso; lia
             | intros (e' & He & Ha & Hb); congruence]]).
    cbn [requests log_request] in H. rewrite length_app in H. cbn [length] in H.
    replace (length (requests w) + 1)%nat with (S (length (requests w))) in H by lia.
    destruct (urlopen E (S (length (requests w))) u true) as [j2 | e2 c2];
      inversion H; subst; cbn [requests log_request]; rewrite <- app_assoc; cbn [app];
      (split;
       [right; split; [unfold first_request; now rewrite Hallow | reflexivity]
       | rewrite length_app; cbn; split;
         [intros _; exists e; repeat split | intros _; lia]]).
Qed.

End HttpProperties.

(** On [behind_proxy] the catalog call takes the unverified retry; on
    [no_scheme] the catalog URL is refused and nothing is sent. *)
Lemma http_get_json_requests_witness :
  (requests (snd (_http_get_json behind_proxy (schema_url behind_proxy) initial_world))
   = [first_request behind_proxy (schema_url behind_proxy);
      retry_request (schema_url behind_proxy)]
   ∧ fst (_http_get_json behind_proxy (schema_url behind_proxy) initial_world)
     = Ok sample_schema)
  ∧ (requests (snd (_http_get_json no_scheme (schema_url no_scheme) initial_world))
     = [refused (schema_url no_scheme)]
     ∧ fst (_http_get_json no_scheme (schema_url no_scheme) initial_world)
       = Raise OtherError).
Proof.
  split.
  - destruct (http_get_json_requests behind_proxy (schema_url behind_proxy)
                initial_world
                (snd (_http_get_json behind_proxy (schema_url behind_proxy) initial_world))
                (fst (_http_get_json behind_proxy (schema_url behind_proxy) initial_world))
                eq_refl)
      as [(Hno & _) | (_ & [[Hreq Hout] | [Hreq Hout]] & _)].
    + discriminate Hno.
    + exfalso. apply (f_equal length) in Hreq. vm_compute in Hreq. discriminate Hreq.
    + split; [exact Hreq | exact Hout].
  - destruct (http_get_json_requests no_scheme (schema_url no_scheme)
                initial_world
                (snd (_http_get_json no_scheme (schema_url no_scheme) initial_world))
                (fst (_http_get_json no_scheme (schema_url no_scheme) initial_world))
                eq_refl)
      as [(_ & Hreq & Hout) | (Hyes & _)].
    + split; [exact Hreq | exact Hout].
    + vm_compute in Hyes. discriminate Hyes.
Defined.

(* --------------------------------------------------------------------- *)
(** ** Schema store, continued *)
(* --------------------------------------------------------------------- *)

Section StoreProperties2.

Variable E : env.

(** X2. The schema a successful [fetch_dataset_schema] returns is the one
    [_SCHEMA_CACHE] holds afterwards; when it was fetched, the timestamp
    stored is the clock reading taken before the request.  If the schema
    is a true value, the next plain call made less than the TTL after that
    timestamp returns it again. *)
Theorem fetch_dataset_schema_round_trip
    (force_refresh : bool) (w w1 : world) (schema : json) :
  fetch_dataset_schema E force_refresh w = (Ok schema, w1) →
  schema_value w1 = schema
  ∧ (schema_cache_serves E force_refresh w = false →
     schema_ts w1 = time E (clock_reads w))
  ∧ (Json.truthy schema = true →
     (time E (clock_reads w1) - schema_ts w1 < _SCHEMA_TTL_SECONDS)%Z →
     fetch_dataset_schema E false w1 = (Ok schema, tick w1)).
Proof.
  intros H.
  assert (Hval : schema_value w1 = schema ∧
                 (schema_cache_serves E force_refresh w = false →
                  schema_ts w1 = time E (clock_reads w))).
  { destruct (schema_cache_serves E force_refresh w) eqn:Hs.
    - rewrite (fetch_dataset_schema_cached _ _ _ Hs) in H. inversion H; subst.
      split; [reflexivity | discriminate].
    - rewrite (fetch_dataset_schema_fetches _ _ _ Hs) in H.
      destruct (_http_get_json E (schema_url E) (tick w)) as [[j | e] w2];
        inversion H; subst. split; [reflexivity | intros _; reflexivity]. }
  destruct Hval as [Hval Hts]. split; [exact Hval | split; [exact Hts |]].
  intros Htrue Hfresh. rewrite <- Hval. apply fetch_dataset_schema_cached.
  unfold schema_cache_serves. rewrite Hval, Htrue. cbn [negb andb].
  now apply Z.ltb_lt.
Qed.

(** X3. [fetch_dataset_schema] sends a catalog request exactly when the
    refresh is forced, the cached value is not a true value (nothing
    cached yet, or an empty answer), or the timestamp is at least the TTL
    old; otherwise it sends none. *)
Theorem fetch_dataset_schema_request_iff
    (force_refresh : bool) (w w' : world) (out : result json) :
  fetch_dataset_schema E force_refresh w = (out, w') →
  attempts (schema_url E) (requests w')
  = (attempts (schema_url E) (requests w)
     + if force_refresh || negb (Json.truthy (schema_value w))
          || (_SCHEMA_TTL_SECONDS <=? time E (clock_reads w) - schema_ts w)%Z
       then 1 else 0)%nat.
Proof.
  intros H. rewrite (fetch_dataset_schema_attempts _ _ _ _ _ _ H).
  rewrite decide_True by reflexivity. unfold schema_cache_serves.
  destruct (Z.ltb_spec (time E (clock_reads w) - schema_ts w) _SCHEMA_TTL_SECONDS),
    (Z.leb_spec _SCHEMA_TTL_SECONDS (time E (clock_reads w) - schema_ts w));
    try (exfalso; lia);
    destruct force_refresh, (Json.truthy (schema_value w)); reflexivity.
Qed.

End StoreProperties2.

(** On [portal_up], a first call fetches the sample schema at clock 100
    and a second call at clock 110 is served from the cache. *)
Lemma fetch_dataset_schema_round_trip_witness :
  fetch_dataset_schema portal_up false after_first_fetch_up
  = (Ok sample_schema, tick after_first_fetch_up).
Proof.
  destruct (fetch_dataset_schema_round_trip portal_up false initial_world
              after_first_fetch_up sample_schema eq_refl) as (_ & _ & Hnext).
  apply Hnext; vm_compute; reflexivity.
Defined.

(** On [empty_catalog] the stored answer [{}] is never served: the second
    plain call, ten clock units later, fetches again. *)
Lemma fetch_dataset_schema_request_iff_witness :
  attempts (schema_url empty_catalog)
    (requests (snd (fetch_dataset_schema empty_catalog false
                      (snd (fetch_dataset_schema empty_catalog false initial_world)))))
  = 2%nat.
Proof.
  rewrite (fetch_dataset_schema_request_iff empty_catalog false
             (snd (fetch_dataset_schema empty_catalog false initial_world)) _ _
             (surjective_pairing _)).
  vm_compute. reflexivity.
Defined.

(* --------------------------------------------------------------------- *)
(** ** Result cache, continued *)
(* --------------------------------------------------------------------- *)

Section CacheProperties2.

Variable E : env.

Lemma cache_get_cases key w out w' :
  _cache_get E key w = (out, w') →
  (results_cache w !! key = None ∧ out = Ok None ∧ w' = w)
  ∨ (∃ entry,
        results_cache w !! key = Some entry
        ∧ (time E (clock_reads w) - ce_ts entry ≤ RESULTS_CACHE_TTL_SECONDS (cfg E))%Z
        ∧ out = Ok (Some (ce_value entry)) ∧ w' = tick w)
  ∨ (∃ entry,
        results_cache w !! key = Some entry
        ∧ (time E (clock_reads w) - ce_ts entry > RESULTS_CACHE_TTL_SECONDS (cfg E))%Z
        ∧ out = Ok None
        ∧ w' = set_results (delete key (results_cache w)) (tick w)).
Proof.
  intros H. destruct (results_cache w !! key) as [entry |] eqn:Hlook.
  - destruct (Z_le_gt_dec (time E (clock_reads w) - ce_ts entry)
                (RESULTS_CACHE_TTL_SECONDS (cfg E))) as [Hle | Hgt].
    + rewrite (cache_get_fresh _ _ _ _ Hlook Hle) in H. inversion H; subst.
      right. left. exists entry. auto.
    + rewrite (cache_get_expired _ _ _ _ Hlook Hgt) in H. inversion H; subst.
      right. right. exists entry. auto.
  - unfold _cache_get in H. rewrite Hlook in H. inversion H; subst. left. auto.
Qed.

(** X4. What [_cache_set] stores under a key, [_cache_get] returns as long
    as the clock has advanced by at most the TTL since the store; once it
    has advanced by more, the lookup reports a miss and removes the
    entry. *)
Theorem cache_set_get_round_trip
    (key : string) (value : search_result) (w later : world) :
  results_cache later = results_cache (snd (_cache_set E key value w)) →
  ((time E (clock_reads later) - time E (clock_reads w)
    ≤ RESULTS_CACHE_TTL_SECONDS (cfg E))%Z →
   _cache_get E key later = (Ok (Some value), tick later))
  ∧ ((time E (clock_reads later) - time E (clock_reads w)
      > RESULTS_CACHE_TTL_SECONDS (cfg E))%Z →
     ∃ w', _cache_get E key later = (Ok None, w')
           ∧ results_cache w' !! key = None).
Proof.
  intros Hsame.
  assert (Hlook : results_cache later !! key
                  = Some {| ce_value := value; ce_ts := time E (clock_reads w) |}).
  { rewrite Hsame, cache_set_lookup. cbn [snd results_cache set_results].
    apply lookup_insert_eq. }
  split; intros Hage.
  - apply (cache_get_fresh _ _ _ _ Hlook Hage).
  - eexists. split; [apply (cache_get_expired _ _ _ _ Hlook Hage) |].
    cbn [results_cache set_results]. apply lookup_delete_eq.
Qed.

(** X5. The cache operations on one key leave every other key as it is,
    and a lookup of a key that is not there changes nothing at all (the
    clock is not even read). *)
Theorem cache_operations_keep_other_keys (key k : string) (w : world) :
  k ≠ key →
  (∀ value, results_cache (snd (_cache_set E key value w)) !! k = results_cache w !! k)
  ∧ results_cache (snd (_cache_get E key w)) !! k = results_cache w !! k
  ∧ (results_cache w !! key = None → _cache_get E key w = (Ok None, w)).
Proof.
  intros Hne. split; [| split].
  - intros value. rewrite cache_set_lookup. cbn [snd results_cache set_results].
    apply lookup_insert_ne. congruence.
  - destruct (_cache_get E key w) as [out w'] eqn:Hget. cbn [snd].
    destruct (cache_get_cases _ _ _ _ Hget)
      as [(_ & _ & ->) | [(entry & _ & _ & _ & ->) | (entry & _ & _ & _ & ->)]];
      try reflexivity.
    cbn [results_cache set_results tick]. apply lookup_delete_ne. congruence.
  - intros Hnone. unfold _cache_get. now rewrite Hnone.
Qed.

End CacheProperties2.

(** Stored at clock 100 and looked up at clock 110, the sample result is
    returned; looked up after six more readings, at clock 170, it is gone. *)
Lemma cache_set_get_round_trip_witness :
  _cache_get portal_up (cache_key portal_up sample_args sample_fields) after_sample_store
  = (Ok (Some sample_result), tick after_sample_store)
  ∧ ∃ w', _cache_get portal_up (cache_key portal_up sample_args sample_fields)
            (Nat.iter 6 tick after_sample_store) = (Ok None, w')
          ∧ results_cache w' !! cache_key portal_up sample_args sample_fields = None.
Proof.
  split.
  - apply (proj1 (cache_set_get_round_trip portal_up _ sample_result initial_world
                    after_sample_store eq_refl)).
    vm_compute. discriminate.
  - apply (proj2 (cache_set_get_round_trip portal_up _ sample_result initial_world
                    (Nat.iter 6 tick after_sample_store) eq_refl)).
    vm_compute. reflexivity.
Defined.

(** Storing under one key and looking it up leaves the key "other"
    absent. *)
Lemma cache_operations_keep_other_keys_witness :
  results_cache after_sample_store !! "other" = None
  ∧ _cache_get portal_up "other" after_sample_store = (Ok None, after_sample_store).
Proof.
  assert (Hne : "other" ≠ cache_key portal_up sample_args sample_fields)
    by (vm_compute; discriminate).
  destruct (cache_operations_keep_other_keys portal_up
              (cache_key portal_up sample_args sample_fields) "other" initial_world Hne)
    as (Hset & _ & _).
  assert (Hnone : results_cache after_sample_store !! "other" = None).
  { unfold after_sample_store. rewrite Hset. reflexivity. }
  split; [exact Hnone |].
  assert (Hne' : cache_key portal_up sample_args sample_fields ≠ "other")
    by (vm_compute; discriminate).
  apply (cache_operations_keep_other_keys portal_up "other"
           (cache_key portal_up sample_args sample_fields) after_sample_store Hne').
  exact Hnone.
Defined.

(* --------------------------------------------------------------------- *)
(** ** Search orchestrator, continued *)
(* --------------------------------------------------------------------- *)

Section OrchestratorProperties2.

Variable E : env.

Ltac frame_split := split; [| split; [| split; [| split; [| split]]]].

Lemma http_get_json_trace u w out w' :
  _http_get_json E u w = (out, w') →
  (∃ rq, last (requests w') = Some rq ∧ rq_url rq = u)
  ∧ (length (requests w') ≤ length (requests w) + 2)%nat.
Proof.
  unfold _http_get_json, send, refused. intros H.
  destruct (request_accepts E u); cbn [negb] in H;
    [| inversion H; subst; cbn [requests log_request]; split;
       [eexists; rewrite last_snoc; split; reflexivity
       | rewrite length_app; cbn; lia]].
  destruct (urlopen E (length (requests w)) u (ALLOW_INSECURE_SSL (cfg E))) as [j | e c].
  - inversion H; subst. cbn [requests log_request]. split.
    + eexists. rewrite last_snoc. split; reflexivity.
    + rewrite length_app. cbn. lia.
  - destruct (negb (ALLOW_INSECURE_SSL (cfg E)) && AUTO_FALLBACK_INSECURE_SSL (cfg E) && c).
    + cbn [requests log_request] in H.
      destruct (urlopen E _ u true) as [j2 | e2 c2]; inversion H; subst;
        cbn [requests log_request];
        (split; [eexists; rewrite last_snoc; split; reflexivity
                | rewrite !length_app; cbn; lia]).
    + inversion H; subst. cbn [requests log_request]. split.
      * eexists. rewrite last_snoc. split; reflexivity.
      * rewrite length_app. cbn. lia.
Qed.

(** A dialect call touches the trace of requests only; when it succeeds
    its result names the URL it requested last and the fields it was
    given. *)
Lemma run_explore_frame a fields w out w' :
  run_explore E a fields w = (out, w') →
  schema_value w' = schema_value w ∧ schema_ts w' = schema_ts w
  ∧ results_cache w' = results_cache w ∧ clock_reads w' = clock_reads w
  ∧ (length (requests w') ≤ length (requests w) + 2)%nat
  ∧ ∀ res, out = Ok res →
           sr_fields res = fields
           ∧ ∃ rq, last (requests w') = Some rq ∧ rq_url rq = sr_url res.
Proof.
  unfold run_explore, _try_explore, bind. fold (explore_url_sent E a fields).
  destruct (_http_get_json E (explore_url_sent E a fields) w) as [[data | e] w1] eqn:Hget;
    intros H;
    destruct (http_get_json_frame _ _ _ _ _ Hget) as (Hv & Hts & Hrc & Hcr);
    destruct (http_get_json_trace _ _ _ _ Hget) as (Hlast & Hlen).
  - destruct (records_of data "results" w1) as [[recs | e] w2] eqn:Hrec;
      apply records_of_pure in Hrec; inversion H; subst; frame_split; auto.
    + intros res Hres. inversion Hres; subst. cbn. split; [reflexivity | exact Hlast].
    + intros res Hres. discriminate Hres.
  - inversion H; subst. frame_split; auto. intros res Hres. discriminate Hres.
Qed.

Lemma run_records_v1_frame a fields w out w' :
  run_records_v1 E a fields w = (out, w') →
  schema_value w' = schema_value w ∧ schema_ts w' = schema_ts w
  ∧ results_cache w' = results_cache w ∧ clock_reads w' = clock_reads w
  ∧ (length (requests w') ≤ length (requests w) + 2)%nat
  ∧ ∀ res, out = Ok res →
           sr_fields res = fields
           ∧ ∃ rq, last (requests w') = Some rq ∧ rq_url rq = sr_url res.
Proof.
  unfold run_records_v1, _try_records_v1, bind. fold (records_v1_url_sent E a fields).
  destruct (_http_get_json E (records_v1_url_sent E a fields) w) as [[data | e] w1] eqn:Hget;
    intros H;
    destruct (http_get_json_frame _ _ _ _ _ Hget) as (Hv & Hts & Hrc & Hcr);
    destruct (http_get_json_trace _ _ _ _ Hget) as (Hlast & Hlen).
  - destruct (records_of data "records" w1) as [[recs | e] w2] eqn:Hrec;
      apply records_of_pure in Hrec; inversion H; subst; frame_split; auto.
    + intros res Hres. inversion Hres; subst. cbn. split; [reflexivity | exact Hlast].
    + intros res Hres. discriminate Hres.
  - inversion H; subst. frame_split; auto. intros res Hres. discriminate Hres.
Qed.

Lemma primary_frame a fields w out w' :
  primary E a fields w = (out, w') →
  schema_value w' = schema_value w ∧ schema_ts w' = schema_ts w
  ∧ results_cache w' = results_cache w ∧ clock_reads w' = clock_reads w
  ∧ (length (requests w') ≤ length (requests w) + 2)%nat
  ∧ ∀ res, out = Ok res →
           sr_fields res = fields
           ∧ ∃ rq, last (requests w') = Some rq ∧ rq_url rq = sr_url res.
Proof.
  unfold primary. destruct (PREFER_EXPLORE (cfg E));
    [apply run_explore_frame | apply run_records_v1_frame].
Qed.

Lemma secondary_frame a fields w out w' :
  secondary E a fields w = (out, w') →
  schema_value w' = schema_value w ∧ schema_ts w' = schema_ts w
  ∧ results_cache w' = results_cache w ∧ clock_reads w' = clock_reads w
  ∧ (length (requests w') ≤ length (requests w) + 2)%nat
  ∧ ∀ res, out = Ok res →
           sr_fields res = fields
           ∧ ∃ rq, last (requests w') = Some rq ∧ rq_url rq = sr_url res.
Proof.
  unfold secondary. destruct (PREFER_EXPLORE (cfg E));
    [apply run_records_v1_frame | apply run_explore_frame].
Qed.

(** [fetch_dataset_schema] leaves the result cache alone and sends at most
    two requests; the schema it returns is the one the cache then holds. *)
Lemma fetch_dataset_schema_frame force w out w' :
  fetch_dataset_schema E force w = (out, w') →
  results_cache w' = results_cache w
  ∧ (length (requests w') ≤ length (requests w) + 2)%nat
  ∧ ∀ schema, out = Ok schema → schema_value w' = schema.
Proof.
  intros H. destruct (schema_cache_serves E force w) eqn:Hs.
  - rewrite (fetch_dataset_schema_cached _ _ _ Hs) in H. inversion H; subst.
    cbn. split; [reflexivity | split; [lia |]]. intros schema Heq. now inversion Heq.
  - rewrite (fetch_dataset_schema_fetches _ _ _ Hs) in H.
    destruct (_http_get_json E (schema_url E) (tick w)) as [[j | e] w1] eqn:Hget;
      destruct (http_get_json_frame _ _ _ _ _ Hget) as (_ & _ & Hrc & _);
      destruct (http_get_json_trace _ _ _ _ Hget) as (_ & Hlen);
      inversion H; subst; cbn in *; (split; [| split]); auto.
    + intros schema Heq. now inversion Heq.
    + intros schema Heq. discriminate Heq.
Qed.

(** The course of [perform_search]: the schema step fails; or the lookup
    hits; or the lookup misses and the dialects are called. *)
Lemma perform_search_cases a w0 out wf :
  perform_search E a w0 = (out, wf) →
  (∃ e, fetch_dataset_schema E false w0 = (Raise e, wf) ∧ out = Raise e)
  ∨ ∃ schema w1,
      fetch_dataset_schema E false w0 = (Ok schema, w1)
      ∧ ((∃ hit, _cache_get E (cache_key E a (resolve_fields schema)) w1
                 = (Ok (Some hit), wf) ∧ out = Ok hit)
         ∨ ∃ w2, _cache_get E (cache_key E a (resolve_fields schema)) w1 = (Ok None, w2)
                 ∧ dialect_outcome E a (resolve_fields schema)
                     (cache_key E a (resolve_fields schema)) w2 out wf).
Proof.
  unfold perform_search, bind. intros H.
  destruct (fetch_dataset_schema E false w0) as [[schema | e] w1] eqn:Hfetch.
  - right. exists schema, w1. split; [reflexivity |].
    set (fields := resolve_fields schema) in *.
    set (key := cache_key E a fields) in *.
    destruct (_cache_get E key w1) as [outg w2] eqn:Hget.
    destruct (cache_get_cases _ _ _ _ _ Hget)
      as [(_ & -> & ->) | [(entry & _ & _ & -> & ->) | (entry & _ & _ & -> & Hw2)]].
    + right. exists w1. split; [reflexivity |].
      unfold dialect_outcome, primary, secondary, falls_back.
      destruct (PREFER_EXPLORE (cfg E)); cbv beta iota in H;
        unfold try_catch in H; rewrite cached_call_eq in H.
      * destruct (run_explore E a fields w1) as [[res | e] w3].
        -- exists (Ok res), w3. split; [reflexivity |]. inversion H; subst. now split.
        -- exists (Raise e), w3. split; [reflexivity |].
           destruct e as [code | | | | |]; cbn [explore_failure_falls_back];
             try (rewrite cached_call_eq in H;
                  destruct (run_records_v1 E a fields w3) as [[res | e2] w4];
                  [exists (Ok res), w4 | exists (Raise e2), w4];
                  (split; [reflexivity | inversion H; subst; now split]));
             try (inversion H; subst; now split).
           destruct ((400 <=? code)%Z && (code <=? 499)%Z).
           ++ rewrite cached_call_eq in H.
              destruct (run_records_v1 E a fields w3) as [[res | e2] w4];
                [exists (Ok res), w4 | exists (Raise e2), w4];
                (split; [reflexivity | inversion H; subst; now split]).
           ++ inversion H; subst. now split.
      * destruct (run_records_v1 E a fields w1) as [[res | e] w3].
        -- exists (Ok res), w3. split; [reflexivity |]. inversion H; subst. now split.
        -- exists (Raise e), w3. split; [reflexivity |].
           destruct e as [code | | | | |]; cbn [records_v1_failure_falls_back];
             try (rewrite cached_call_eq in H;
                  destruct (run_explore E a fields w3) as [[res | e2] w4];
                  [exists (Ok res), w4 | exists (Raise e2), w4];
                  (split; [reflexivity | inversion H; subst; now split]));
             try (inversion H; subst; now split).
    + left. exists (ce_value entry). inversion H; subst. now split.
    + right. exists w2. split; [reflexivity |].
      unfold dialect_outcome, primary, secondary, falls_back.
      destruct (PREFER_EXPLORE (cfg E)); cbv beta iota in H;
        unfold try_catch in H; rewrite cached_call_eq in H.
      * destruct (run_explore E a fields w2) as [[res | e] w3].
        -- exists (Ok res), w3. split; [reflexivity |]. inversion H; subst. now split.
        -- exists (Raise e), w3. split; [reflexivity |].
           destruct e as [code | | | | |]; cbn [explore_failure_falls_back];
             try (rewrite cached_call_eq in H;
                  destruct (run_records_v1 E a fields w3) as [[res | e2] w4];
                  [exists (Ok res), w4 | exists (Raise e2), w4];
                  (split; [reflexivity | inversion H; subst; now split]));
             try (inversion H; subst; now split).
           destruct ((400 <=? code)%Z && (code <=? 499)%Z).
           ++ rewrite cached_call_eq in H.
              destruct (run_records_v1 E a fields w3) as [[res | e2] w4];
                [exists (Ok res), w4 | exists (Raise e2), w4];
                (split; [reflexivity | inversion H; subst; now split]).
           ++ inversion H; subst. now split.
      * destruct (run_records_v1 E a fields w2) as [[res | e] w3].
        -- exists (Ok res), w3. split; [reflexivity |]. inversion H; subst. now split.
        -- exists (Raise e), w3. split; [reflexivity |].
           destruct e as [code | | | | |]; cbn [records_v1_failure_falls_back];
             try (rewrite cached_call_eq in H;
                  destruct (run_explore E a fields w3) as [[res | e2] w4];
                  [exists (Ok res), w4 | exists (Raise e2), w4];
                  (split; [reflexivity | inversion H; subst; now split]));
             try (inversion H; subst; now split).
  - left. exists e. inversion H; subst. now split.
Qed.

End OrchestratorProperties2.

Section OrchestratorProperties3.

Variable E : env.

Lemma no_new_entry_same w w' : results_cache w' = results_cache w → no_new_entry w w'.
Proof. intros Heq k entry. now rewrite Heq. Qed.

Lemma no_new_entry_trans w1 w2 w3 :
  no_new_entry w1 w2 → no_new_entry w2 w3 → no_new_entry w1 w3.
Proof. unfold no_new_entry. eauto. Qed.

Lemma cache_get_frame key w out w' :
  _cache_get E key w = (out, w') →
  no_new_entry w w' ∧ schema_value w' = schema_value w ∧ schema_ts w' = schema_ts w.
Proof.
  intros H.
  destruct (cache_get_cases _ _ _ _ _ H)
    as [(_ & _ & ->) | [(entry & _ & _ & _ & ->) | (entry & _ & _ & _ & ->)]];
    (split; [| split; reflexivity]).
  - now apply no_new_entry_same.
  - now apply no_new_entry_same.
  - intros k e. cbn [results_cache set_results tick].
    rewrite lookup_delete_Some. now intros [_ ?].
Qed.

(** X6. A call of [perform_search] that raises stores nothing: every
    entry of the result cache afterwards was there before. *)
Theorem perform_search_failure_stores_nothing
    (a : search_args) (w0 wf : world) (e : exn) :
  perform_search E a w0 = (Raise e, wf) → no_new_entry w0 wf.
Proof.
  intros H.
  destruct (perform_search_cases _ _ _ _ _ H)
    as [(e0 & Hfetch & _) | (schema & w1 & Hfetch & Hrest)];
    destruct (fetch_dataset_schema_frame _ _ _ _ _ Hfetch) as (Hrc & _ & _).
  - now apply no_new_entry_same.
  - destruct Hrest as [(hit & _ & Hout) | (w2 & Hget & r & w3 & Hprim & Hr)];
      [discriminate Hout |].
    apply (no_new_entry_trans _ w1); [now apply no_new_entry_same |].
    apply (no_new_entry_trans _ w2); [apply (cache_get_frame _ _ _ _ Hget) |].
    destruct (primary_frame _ _ _ _ _ _ Hprim) as (_ & _ & Hrc3 & _).
    destruct r as [res | e1]; [destruct Hr as [Hout _]; discriminate Hout |].
    destruct (falls_back E e1).
    + destruct Hr as (r2 & w4 & Hsec & Hr2).
      destruct (secondary_frame _ _ _ _ _ _ Hsec) as (_ & _ & Hrc4 & _).
      destruct r2 as [res | e2]; [destruct Hr2 as [Hout _]; discriminate Hout |].
      destruct Hr2 as [_ ->]. apply no_new_entry_same. congruence.
    + destruct Hr as [_ ->]. now apply no_new_entry_same.
Qed.

(** A successful search leaves its result in the cache under the key the
    next identical search computes. *)
Lemma perform_search_ok_entry a w0 res wf :
  perform_search E a w0 = (Ok res, wf) →
  ∃ entry,
    results_cache wf !! cache_key E a (resolve_fields (schema_value wf)) = Some entry
    ∧ ce_value entry = res.
Proof.
  intros H.
  destruct (perform_search_cases _ _ _ _ _ H)
    as [(e0 & _ & Hout) | (schema & w1 & Hfetch & Hrest)]; [discriminate Hout |].
  destruct (fetch_dataset_schema_frame _ _ _ _ _ Hfetch) as (_ & _ & Hschema).
  specialize (Hschema schema eq_refl).
  destruct Hrest as [(hit & Hget & Hout) | (w2 & Hget & r & w3 & Hprim & Hr)].
  - inversion Hout; subst hit.
    destruct (cache_get_cases _ _ _ _ _ Hget)
      as [(_ & Hf & _) | [(entry & Hlook & _ & Hval & ->) | (entry & _ & _ & Hf & _)]];
      try discriminate.
    exists entry. cbn [schema_value results_cache tick]. rewrite Hschema.
    split; [exact Hlook | congruence].
  - destruct (cache_get_frame _ _ _ _ Hget) as (_ & Hs2 & _).
    destruct (primary_frame _ _ _ _ _ _ Hprim) as (Hs3 & _).
    destruct r as [res1 | e1].
    + destruct Hr as [Hout ->]. inversion Hout; subst res1.
      eexists. cbn [schema_value results_cache stored set_results tick].
      rewrite Hs3, Hs2, Hschema. split; [apply lookup_insert_eq | reflexivity].
    + destruct (falls_back E e1); [| destruct Hr as [Hout _]; discriminate Hout].
      destruct Hr as (r2 & w4 & Hsec & Hr2).
      destruct (secondary_frame _ _ _ _ _ _ Hsec) as (Hs4 & _).
      destruct r2 as [res2 | e2]; [| destruct Hr2 as [Hout _]; discriminate Hout].
      destruct Hr2 as [Hout ->]. inversion Hout; subst res2.
      eexists. cbn [schema_value results_cache stored set_results tick].
      rewrite Hs4, Hs3, Hs2, Hschema. split; [apply lookup_insert_eq | reflexivity].
Qed.

(** X7. After a successful search, the same search made while the schema
    cache still serves and the stored entry is no older than the TTL
    returns the same result and sends no request. *)
Theorem perform_search_repeat (a : search_args) (w0 wf : world) (res : search_result) :
  perform_search E a w0 = (Ok res, wf) →
  schema_cache_serves E false wf = true →
  (∀ entry,
      results_cache wf !! cache_key E a (resolve_fields (schema_value wf)) = Some entry →
      (time E (S (clock_reads wf)) - ce_ts entry ≤ RESULTS_CACHE_TTL_SECONDS (cfg E))%Z) →
  perform_search E a wf = (Ok res, tick (tick wf))
  ∧ requests (tick (tick wf)) = requests wf.
Proof.
  intros H Hserve Hfresh.
  destruct (perform_search_ok_entry _ _ _ _ H) as (entry & Hlook & Hval).
  split; [| reflexivity].
  unfold perform_search, bind.
  rewrite (fetch_dataset_schema_cached _ _ _ Hserve).
  rewrite (cache_get_fresh E _ (tick wf) entry Hlook (Hfresh entry Hlook)).
  now rewrite Hval.
Qed.

(** X8. One call of [perform_search] calls [_http_get_json] at most once
    on any URL, and sends at most six requests in all (three URLs, each
    with at most one unverified retry). *)
Theorem perform_search_request_bound
    (a : search_args) (w0 wf : world) (out : result search_result) :
  perform_search E a w0 = (out, wf) →
  (∀ u, attempts u (requests wf) ≤ attempts u (requests w0) + 1)%nat
  ∧ (length (requests wf) ≤ length (requests w0) + 6)%nat.
Proof.
  intros H.
  destruct (perform_search_cases _ _ _ _ _ H)
    as [(e0 & Hfetch & _) | (schema & w1 & Hfetch & Hrest)];
    destruct (fetch_dataset_schema_frame _ _ _ _ _ Hfetch) as (_ & Hlen1 & _).
  - split; [| lia]. intros u.
    rewrite (fetch_dataset_schema_attempts _ _ u _ _ _ Hfetch).
    destruct (schema_cache_serves E false w0); [lia |]. case_decide; lia.
  - set (fields := resolve_fields schema) in *.
    assert (Hat1 : ∀ u, attempts u (requests w1)
                        = (attempts u (requests w0)
                           + if schema_cache_serves E false w0 then 0
                             else if decide (schema_url E = u) then 1 else 0)%nat)
      by (intros u; apply (fetch_dataset_schema_attempts _ _ u _ _ _ Hfetch)).
    pose proof (schema_url_not_explore E a fields) as Hse.
    pose proof (schema_url_not_records_v1 E a fields) as Hsv.
    pose proof (explore_url_not_records_v1 E a fields) as Hev.
    destruct Hrest as [(hit & Hget & _) | (w2 & Hget & r & w3 & Hprim & Hr)];
      pose proof (cache_get_requests _ _ _ _ _ Hget) as Hreq2.
    + rewrite Hreq2. split; [| lia]. intros u. rewrite Hat1.
      destruct (schema_cache_serves E false w0); [lia |]. case_decide; lia.
    + destruct (primary_frame _ _ _ _ _ _ Hprim) as (_ & _ & _ & _ & Hlen3 & _).
      assert (Hat3 : ∀ u, attempts u (requests w3)
                          = (attempts u (requests w2)
                             + if decide ((if PREFER_EXPLORE (cfg E)
                                           then explore_url_sent E a fields
                                           else records_v1_url_sent E a fields) = u)
                               then 1 else 0)%nat).
      { intros u. unfold primary in Hprim. destruct (PREFER_EXPLORE (cfg E)).
        - apply (run_explore_attempts _ _ _ u _ _ _ Hprim).
        - apply (run_records_v1_attempts _ _ _ u _ _ _ Hprim). }
      assert (Hend : (wf = w3 ∨ ∃ res, wf = stored E (cache_key E a fields) res w3)
                     ∨ ∃ r2 w4, secondary E a fields w3 = (r2, w4)
                                ∧ (wf = w4 ∨ ∃ res, wf = stored E (cache_key E a fields) res w4)).
      { destruct r as [res | e1].
        - left. right. exists res. apply Hr.
        - destruct (falls_back E e1).
          + destruct Hr as (r2 & w4 & Hsec & Hr2). right. exists r2, w4.
            split; [exact Hsec |]. destruct r2 as [res | e2].
            * right. exists res. apply Hr2.
            * left. apply Hr2.
          + left. left. apply Hr. }
      destruct Hend as [Hwf | (r2 & w4 & Hsec & Hwf)].
      * assert (Hreqf : requests wf = requests w3)
          by (destruct Hwf as [-> | [res ->]]; reflexivity).
        rewrite Hreqf, Hreq2 in *. split; [| lia]. intros u.
        rewrite Hat3, Hat1.
        destruct (schema_cache_serves E false w0), (PREFER_EXPLORE (cfg E));
          repeat case_decide; subst; try contradiction; try congruence; lia.
      * destruct (secondary_frame _ _ _ _ _ _ Hsec) as (_ & _ & _ & _ & Hlen4 & _).
        assert (Hat4 : ∀ u, attempts u (requests w4)
                            = (attempts u (requests w3)
                               + if decide ((if PREFER_EXPLORE (cfg E)
                                             then records_v1_url_sent E a fields
                                             else explore_url_sent E a fields) = u)
                                 then 1 else 0)%nat).
        { intros u. unfold secondary in Hsec. destruct (PREFER_EXPLORE (cfg E)).
          - apply (run_records_v1_attempts _ _ _ u _ _ _ Hsec).
          - apply (run_explore_attempts _ _ _ u _ _ _ Hsec). }
        assert (Hreqf : requests wf = requests w4)
          by (destruct Hwf as [-> | [res ->]]; reflexivity).
        rewrite Hreqf, Hreq2 in *. split; [| lia]. intros u.
        rewrite Hat4, Hat3, Hat1.
        destruct (schema_cache_serves E false w0), (PREFER_EXPLORE (cfg E));
          repeat case_decide; subst; try contradiction; try congruence; lia.
Qed.

(** X9. When the result cache misses and the search succeeds, the fields
    returned are those resolved from the schema and the debug URL returned
    is the URL of the last request that was sent. *)
Theorem perform_search_debug_url
    (a : search_args) (w0 w1 w2 wf : world) (schema : json) (res : search_result) :
  perform_search E a w0 = (Ok res, wf) →
  fetch_dataset_schema E false w0 = (Ok schema, w1) →
  _cache_get E (cache_key E a (resolve_fields schema)) w1 = (Ok None, w2) →
  sr_fields res = resolve_fields schema
  ∧ ∃ rq, last (requests wf) = Some rq ∧ rq_url rq = sr_url res.
Proof.
  intros H Hfetch Hget.
  destruct (perform_search_cases _ _ _ _ _ H)
    as [(e0 & Hfetch' & _) | (schema' & w1' & Hfetch' & Hrest)];
    rewrite Hfetch in Hfetch'; [discriminate Hfetch' |].
  inversion Hfetch'; subst schema' w1'.
  destruct Hrest as [(hit & Hget' & _) | (w2' & Hget' & r & w3 & Hprim & Hr)];
    rewrite Hget in Hget'; [discriminate Hget' |].
  inversion Hget'; subst w2'.
  destruct (primary_frame _ _ _ _ _ _ Hprim) as (_ & _ & _ & _ & _ & Hres3).
  destruct r as [res1 | e1].
  - destruct Hr as [Hout ->]. inversion Hout; subst res1.
    apply (Hres3 res eq_refl).
  - destruct (falls_back E e1); [| destruct Hr as [Hout _]; discriminate Hout].
    destruct Hr as (r2 & w4 & Hsec & Hr2).
    destruct (secondary_frame _ _ _ _ _ _ Hsec) as (_ & _ & _ & _ & _ & Hres4).
    destruct r2 as [res2 | e2]; [| destruct Hr2 as [Hout _]; discriminate Hout].
    destruct Hr2 as [Hout ->]. inversion Hout; subst res2.
    apply (Hres4 res eq_refl).
Qed.

End OrchestratorProperties3.

(** On [both_fail] the search raises the 502 of the second dialect and the
    result cache stays empty. *)
Lemma perform_search_failure_stores_nothing_witness :
  fst (perform_search both_fail sample_args initial_world) = Raise (HTTPError 502)
  ∧ results_cache (snd (perform_search both_fail sample_args initial_world))
      !! cache_key both_fail sample_args sample_fields = None.
Proof.
  assert (Hrun : perform_search both_fail sample_args initial_world
                 = (Raise (HTTPError 502),
                    snd (perform_search both_fail sample_args initial_world))).
  { rewrite (surjective_pairing (perform_search both_fail sample_args initial_world)) at 1.
    f_equal; vm_compute; reflexivity. }
  pose proof (perform_search_failure_stores_nothing both_fail sample_args initial_world
                _ _ Hrun) as Hnone.
  split; [now rewrite Hrun |].
  destruct (results_cache (snd (perform_search both_fail sample_args initial_world))
              !! cache_key both_fail sample_args sample_fields) as [entry |] eqn:Hlook;
    [| reflexivity].
  apply Hnone in Hlook. discriminate Hlook.
Defined.

Lemma first_search_on_portal_up :
  perform_search portal_up sample_args initial_world = (Ok sample_result, after_first_search).
Proof.
  rewrite (surjective_pairing (perform_search portal_up sample_args initial_world)).
  f_equal; vm_compute; reflexivity.
Qed.

(** On [portal_up] the second identical search, twenty clock units after
    the first stored its result, returns it again and sends nothing. *)
Lemma perform_search_repeat_witness :
  perform_search portal_up sample_args after_first_search
  = (Ok sample_result, tick (tick after_first_search))
  ∧ requests (tick (tick after_first_search)) = requests after_first_search.
Proof.
  apply (perform_search_repeat portal_up sample_args initial_world after_first_search
           sample_result first_search_on_portal_up).
  - vm_compute. reflexivity.
  - intros entry Hlook.
    assert (Hentry : results_cache after_first_search
                       !! cache_key portal_up sample_args
                            (resolve_fields (schema_value after_first_search))
                     = Some {| ce_value := sample_result; ce_ts := 110 |})
      by (vm_compute; reflexivity).
    rewrite Hentry in Hlook. inversion Hlook; subst entry.
    vm_compute. discriminate.
Defined.

(** On [explore_rejects] the search sends three requests, one per URL. *)
Lemma perform_search_request_bound_witness :
  (length (requests (snd (perform_search explore_rejects sample_args initial_world)))
   ≤ 6)%nat
  ∧ (attempts (schema_url explore_rejects)
       (requests (snd (perform_search explore_rejects sample_args initial_world)))
     ≤ 1)%nat.
Proof.
  destruct (perform_search_request_bound explore_rejects sample_args initial_world
              _ _ (surjective_pairing _)) as [Hat Hlen].
  split; [exact Hlen | apply (Hat (schema_url explore_rejects))].
Defined.

(** On [explore_rejects] the debug URL returned is the Records v1 URL,
    the last one requested. *)
Lemma perform_search_debug_url_witness :
  ∃ rq res,
    fst (perform_search explore_rejects sample_args initial_world) = Ok res
    ∧ last (requests (snd (perform_search explore_rejects sample_args initial_world)))
      = Some rq
    ∧ rq_url rq = sr_url res
    ∧ sr_url res = records_v1_url_sent explore_rejects sample_args sample_fields.
Proof.
  assert (Hrun : perform_search explore_rejects sample_args initial_world
                 = (Ok {| sr_records :=
                            [JObj [("fields", JObj [("objet", JStr "Formation bureautique")])]];
                          sr_total := JNum 1;
                          sr_url := records_v1_url_sent explore_rejects sample_args
                                      sample_fields;
                          sr_fields := sample_fields |},
                    snd (perform_search explore_rejects sample_args initial_world))).
  { rewrite (surjective_pairing (perform_search explore_rejects sample_args initial_world))
      at 1.
    f_equal; vm_compute; reflexivity. }
  destruct (perform_search_debug_url explore_rejects sample_args initial_world
              (snd (fetch_dataset_schema explore_rejects false initial_world))
              (after_lookup explore_rejects) _ sample_schema _ Hrun)
    as (_ & rq & Hlast & Hurl); [vm_compute; reflexivity | vm_compute; reflexivity |].
  exists rq. eexists. rewrite Hrun. cbn [fst snd].
  split; [reflexivity | split; [exact Hlast | split; [exact Hurl | reflexivity]]].
Defined.

(* --------------------------------------------------------------------- *)
(** ** Field resolver, continued *)
(* --------------------------------------------------------------------- *)

Lemma pick_ext names names' cands fallback :
  (∀ c, name_in c names = name_in c names') →
  pick names cands fallback = pick names' cands fallback.
Proof.
  intros H. induction cands as [|c r IH]; cbn [pick]; [reflexivity |].
  now rewrite H, IH.
Qed.

(** X10. [resolve_fields] depends on the schema only through the set of
    its column names: two schemas in which the same names occur resolve to
    the same fields, whatever the order or the repetitions of the
    columns. *)
Theorem resolve_fields_names_only (schema schema' : json) :
  (∀ c, occurs c (schema_names schema) ↔ occurs c (schema_names schema')) →
  resolve_fields schema = resolve_fields schema'.
Proof.
  intros H.
  assert (Hin : ∀ c, name_in c (schema_names schema) = name_in c (schema_names schema')).
  { intros c. apply eq_true_iff_eq. rewrite !name_in_occurs. apply H. }
  unfold resolve_fields. cbv zeta.
  now rewrite !(pick_ext _ _ _ _ Hin).
Qed.

Lemma resolve_fields_names_only_witness :
  resolve_fields sample_schema = resolve_fields shuffled_schema.
Proof.
  apply resolve_fields_names_only. intros c. unfold occurs.
  change (schema_names sample_schema) with
    [JStr "objet"; JStr "dateparution"; JStr EmptyString].
  change (schema_names shuffled_schema) with
    [JStr "dateparution"; JStr EmptyString; JStr "objet"; JStr "dateparution"].
  cbn [In]. tauto.
Defined.

(* --------------------------------------------------------------------- *)
(** ** Query builders, continued *)
(* --------------------------------------------------------------------- *)

Lemma undouble_double_quotes s : undouble_quotes (Py.double_quotes s) = s.
Proof.
  induction s as [|c r IH]; [reflexivity |].
  cbn [Py.double_quotes]. destruct (Ascii.eqb c "'"%char) eqn:Hc.
  - apply Ascii.eqb_eq in Hc. subst c. cbn. now rewrite IH.
  - cbn [undouble_quotes]. now rewrite Hc, IH.
Qed.

(** X11. The value [_safe_like_fragment] embeds between [LIKE '%] and
    [%'] has every single quote doubled, and reading the doubled quotes
    back gives the value it was called with: distinct values are never
    confused. *)
Theorem safe_like_fragment_round_trip (field value : string) :
  ∃ v,
    _safe_like_fragment field value = "string(" +:+ field +:+ ") LIKE '%" +:+ v +:+ "%'"
    ∧ quotes_doubled v = true
    ∧ undouble_quotes v = value.
Proof.
  exists (Py.double_quotes value). split; [reflexivity | split].
  - apply double_quotes_doubled.
  - apply undouble_double_quotes.
Qed.

(* --------------------------------------------------------------------- *)
(** ** Pagination *)
(* --------------------------------------------------------------------- *)

(** X12. Whatever the [page] and [pageSize] arguments hold and whatever
    [int] makes of them, the page is at least 1, the page size lies
    between 1 and 100, and the offset handed to the builders is not
    negative. *)
Theorem request_paging_bounds
    (int_of_str : string → option Z) (raw_page raw_size : option string) :
  let page := request_page int_of_str raw_page in
  let page_size := request_page_size int_of_str raw_size in
  (1 ≤ page)%Z ∧ (1 ≤ page_size ≤ 100)%Z ∧ (0 ≤ (page - 1) * page_size)%Z.
Proof.
  unfold request_page, request_page_size.
  destruct (int_of_str (arg_or raw_page "1")) as [n |],
    (int_of_str (arg_or raw_size "20")) as [m |]; cbv zeta; nia.
Qed.

(** X13. For a positive page size and a total of at least one record,
    [total_pages] is the least number of pages that holds the total; in
    every case it is at least 1. *)
Theorem total_pages_ceiling (total : json) (n page_size : Z) :
  (1 ≤ total_pages total page_size)%Z
  ∧ ((0 < page_size)%Z → (1 ≤ n)%Z →
     ((total_pages (JNum n) page_size - 1) * page_size < n
      ≤ total_pages (JNum n) page_size * page_size)%Z).
Proof.
  split.
  - unfold total_pages. destruct total; try lia;
      destruct (page_size >? 0)%Z; lia.
  - intros Hps Hn. unfold total_pages.
    replace (page_size >? 0)%Z with true by (symmetry; apply Z.gtb_lt; lia).
    pose proof (Z.div_mod (n + page_size - 1) page_size ltac:(lia)) as Hdm.
    pose proof (Z.mod_pos_bound (n + page_size - 1) page_size Hps) as Hmod.
    assert (Hq : (1 ≤ (n + page_size - 1) / page_size)%Z).
    { apply Z.div_le_lower_bound; lia. }
    rewrite Z.max_r by lia. nia.
Qed.

Lemma total_pages_ceiling_witness :
  ((total_pages (JNum 41) 20 - 1) * 20 < 41 ≤ total_pages (JNum 41) 20 * 20)%Z.
Proof.
  apply (proj2 (total_pages_ceiling JNull 41 20)); lia.
Defined.

(* --------------------------------------------------------------------- *)
(** ** Cache key, continued *)
(* --------------------------------------------------------------------- *)

Lemma cache_key_dept_codes_order_witness :
  cache_key portal_up (with_dept_codes ["93"; "75"; "92"] sample_args) sample_fields
  = cache_key portal_up (with_dept_codes ["75"; "92"; "93"] sample_args) sample_fields.
Proof.
  apply cache_key_dept_codes_order.
  change ["93"; "75"; "92"] with (["93"] ++ ["75"; "92"])%list.
  change ["75"; "92"; "93"] with (["75"; "92"] ++ ["93"])%list.
  apply Permutation_app_comm.
Defined.

(* --------------------------------------------------------------------- *)
(** ** URL encoding *)
(* --------------------------------------------------------------------- *)

Lemma append_cons c s t : String c s +:+ t = String c (s +:+ t).
Proof. reflexivity. Qed.

Lemma has_char_app c s t : has_char c (s +:+ t) = has_char c s || has_char c t.
Proof.
  induction s as [|d r IH]; [reflexivity |].
  rewrite append_cons. cbn [has_char]. now rewrite IH, orb_assoc.
Qed.

Lemma quote_plus_cons c r : Url.quote_plus (String c r) = quoted_byte c +:+ Url.quote_plus r.
Proof. reflexivity. Qed.

Lemma quoted_byte_no_amp c : has_char "&" (quoted_byte c) = false.
Proof. destruct c as [[] [] [] [] [] [] [] []]; reflexivity. Qed.

Lemma quoted_byte_no_eq c : has_char "=" (quoted_byte c) = false.
Proof. destruct c as [[] [] [] [] [] [] [] []]; reflexivity. Qed.

Lemma quote_plus_no_amp s : has_char "&" (Url.quote_plus s) = false.
Proof.
  induction s as [|c r IH]; [reflexivity |].
  now rewrite quote_plus_cons, has_char_app, quoted_byte_no_amp, IH.
Qed.

Lemma quote_plus_no_eq s : has_char "=" (Url.quote_plus s) = false.
Proof.
  induction s as [|c r IH]; [reflexivity |].
  now rewrite quote_plus_cons, has_char_app, quoted_byte_no_eq, IH.
Qed.

Lemma split_on_absent sep s : has_char sep s = false → Py.split_on sep s = [s].
Proof.
  induction s as [|c r IH]; [reflexivity |].
  cbn [has_char Py.split_on]. intros H. apply orb_false_elim in H as [Hc Hr].
  now rewrite Hc, (IH Hr).
Qed.

Lemma split_on_app sep a b :
  has_char sep a = false →
  Py.split_on sep (a +:+ String sep b) = a :: Py.split_on sep b.
Proof.
  induction a as [|c r IH]; intros H.
  - change (EmptyString +:+ String sep b) with (String sep b).
    cbn [Py.split_on]. now rewrite Ascii.eqb_refl.
  - cbn [has_char] in H. apply orb_false_elim in H as [Hc Hr].
    rewrite append_cons. cbn [Py.split_on]. now rewrite Hc, (IH Hr).
Qed.

Lemma split_on_join sep l :
  Forall (fun x => has_char sep x = false) l → l ≠ [] →
  Py.split_on sep (Py.join (String sep EmptyString) l) = l.
Proof.
  induction l as [|x r IH]; intros Hall Hne; [contradiction |].
  inversion Hall as [| ? ? Hx Hr]; subst.
  destruct r as [|y r'].
  - cbn [Py.join]. now apply split_on_absent.
  - change (Py.join (String sep EmptyString) (x :: y :: r'))
      with (x +:+ String sep (Py.join (String sep EmptyString) (y :: r'))).
    rewrite (split_on_app _ _ _ Hx). f_equal. apply IH; [exact Hr | discriminate].
Qed.

(** X14. The query string [urlencode] builds can be taken apart again:
    cutting it at every [&] and each piece at every [=] gives back, in
    order, one pair per parameter, holding the quoted key and the quoted
    value.  No key or value, whatever characters it holds, adds or splits
    a parameter. *)
Theorem urlencode_split (params : list (string * string)) :
  params ≠ [] →
  map (Py.split_on "=") (Py.split_on "&" (Url.urlencode params))
  = map (fun kv => [Url.quote_plus (fst kv); Url.quote_plus (snd kv)]) params.
Proof.
  intros Hne. unfold Url.urlencode.
  rewrite split_on_join.
  - rewrite map_map. apply map_ext. intros [k v]. cbn [fst snd].
    change (Url.quote_plus k +:+ "=" +:+ Url.quote_plus v)
      with (Url.quote_plus k +:+ String "=" (Url.quote_plus v)).
    rewrite (split_on_app _ _ _ (quote_plus_no_eq k)).
    now rewrite (split_on_absent _ _ (quote_plus_no_eq v)).
  - apply Forall_forall. intros x Hx. apply list_elem_of_In in Hx.
    apply in_map_iff in Hx as ([k v] & <- & _).
    cbn [fst snd]. rewrite !has_char_app, !quote_plus_no_amp. reflexivity.
  - destruct params; [contradiction | discriminate].
Qed.

Lemma urlencode_split_witness :
  map (Py.split_on "=")
    (Py.split_on "&" (Url.urlencode [("q", "a&b=c d"); ("refine.acheteur", "R&D = 1")]))
  = [["q"; "a%26b%3Dc+d"]; ["refine.acheteur"; "R%26D+%3D+1"]].
Proof.
  rewrite urlencode_split by discriminate. reflexivity.
Defined.

(* --------------------------------------------------------------------- *)
(** ** Record URL normaliser, continued *)
(* --------------------------------------------------------------------- *)

Section NormalizerProperties2.

Variable urlparse_hostname : string → option (option string).
Variable urljoin : string → string → option string.

(** X15. With no raw URL and a non-empty record id, and unless a
    reference is available on a host ending with "boamp.fr", the result is
    the record page of the dataset with the quoted record id: the second
    piece of [urlencode({'id': record_id}).split('=')] always exists and
    is that quoted id. *)
Theorem normalize_record_url_dataset_record
    (base dataset_id rid : string) (raw_url reference : option string) :
  Py.opt_truthy raw_url = false →
  rid ≠ EmptyString →
  (Py.opt_truthy reference = false
   ∨ ∀ h, urlparse_hostname (Py.rstrip_slash base) = Some (Some h) →
          Py.endswith h "boamp.fr" = false) →
  _normalize_record_url urlparse_hostname urljoin base dataset_id raw_url reference
    (Some rid)
  = Py.rstrip_slash base +:+ "/explore/dataset/" +:+ dataset_id +:+ "/record/?id="
      +:+ Url.quote_plus rid.
Proof.
  intros Hraw Hrid Hno. unfold _normalize_record_url. cbv zeta.
  set (b := Py.rstrip_slash base).
  assert (Hne : Py.nonempty rid = true) by (destruct rid; [congruence | reflexivity]).
  rewrite Hne.
  assert (Hsplit : Py.split_on "=" (Url.urlencode [("id", rid)]) !! 1%nat
                   = Some (Url.quote_plus rid)).
  { change (Url.urlencode [("id", rid)]) with ("id" +:+ String "=" (Url.quote_plus rid)).
    rewrite split_on_app by reflexivity.
    now rewrite (split_on_absent _ _ (quote_plus_no_eq rid)). }
  rewrite Hsplit. cbn [default from_option]. unfold id. cbv beta iota.
  assert (Hdetail :
            match reference with
            | Some r =>
                if Py.endswith
                     match urlparse_hostname b with
                     | Some (Some h) => h
                     | _ => EmptyString
                     end "boamp.fr" && Py.nonempty r
                then b +:+ "/avis/detail/" +:+ r
                else b +:+ "/explore/dataset/" +:+ dataset_id +:+ "/record/?id="
                       +:+ Url.quote_plus rid
            | None => b +:+ "/explore/dataset/" +:+ dataset_id +:+ "/record/?id="
                        +:+ Url.quote_plus rid
            end
            = b +:+ "/explore/dataset/" +:+ dataset_id +:+ "/record/?id="
                +:+ Url.quote_plus rid).
  { destruct reference as [r |]; [| reflexivity].
    destruct Hno as [Href | Hhost].
    - cbn in Href. now rewrite Href, andb_false_r.
    - destruct (urlparse_hostname b) as [[h |] |] eqn:Hh.
      + now rewrite (Hhost h Hh).
      + reflexivity.
      + reflexivity. }
  rewrite Hdetail.
  destruct raw_url as [raw |]; [| reflexivity].
  cbn in Hraw. now rewrite Hraw.
Qed.

End NormalizerProperties2.

Lemma normalize_record_url_dataset_record_witness :
  _normalize_record_url sample_hostname sample_urljoin
    "https://boamp-datadila.opendatasoft.com/" "boamp" None (Some "24-12345")
    (Some "a=b c")
  = "https://boamp-datadila.opendatasoft.com/explore/dataset/boamp/record/?id=a%3Db+c".
Proof.
  rewrite (normalize_record_url_dataset_record sample_hostname sample_urljoin
             "https://boamp-datadila.opendatasoft.com/" "boamp" "a=b c" None
             (Some "24-12345")).
  - reflexivity.
  - reflexivity.
  - discriminate.
  - right. intros h Hh. vm_compute in Hh. inversion Hh; subst h. reflexivity.
Defined.

(* --------------------------------------------------------------------- *)
(** ** Request helpers *)
(* --------------------------------------------------------------------- *)

Lemma append_empty_r s t : s +:+ t = EmptyString → t = EmptyString.
Proof. destruct s; [trivial | discriminate]. Qed.

Lemma flat_map_all_nil {A B} (f : A → list B) (l : list A) :
  (∀ x, In x l → f x = []) → flat_map f l = [].
Proof.
  induction l as [|x r IH]; intros H; [reflexivity |].
  cbn [flat_map]. rewrite (H x (or_introl eq_refl)). apply IH.
  intros y Hy. apply H. now right.
Qed.

(** X16. With [use_training] the composed query is never empty and ends
    with the training terms joined by " OR ".  Without it, a manual text
    that is empty or blank and a selection naming no known bucket give the
    empty query. *)
Theorem compose_keywords_edges (manual : string) (selected_buckets : list string) :
  (∃ prefix,
      _compose_keywords manual selected_buckets true
      = prefix +:+ Py.join " OR " TRAINING_TERMS)
  ∧ _compose_keywords manual selected_buckets true ≠ EmptyString
  ∧ (not_blank manual = false →
     (∀ name, In name selected_buckets → bucket name = []) →
     _compose_keywords manual selected_buckets false = EmptyString).
Proof.
  assert (Hsuffix : ∃ prefix,
             _compose_keywords manual selected_buckets true
             = prefix +:+ Py.join " OR " TRAINING_TERMS).
  { unfold _compose_keywords. cbv zeta.
    set (b := Py.join " OR " (filter _ (flat_map bucket selected_buckets))).
    set (t := Py.join " OR " TRAINING_TERMS).
    assert (Ht : not_blank t = true) by (vm_compute; reflexivity).
    rewrite !filter_cons, filter_nil. rewrite (decide_True (P := not_blank t = true)) by exact Ht.
    destruct (decide (not_blank manual = true)), (decide (not_blank b = true)).
    - exists (manual +:+ " OR " +:+ b +:+ " OR "). cbn [Py.join].
      now rewrite !append_assoc.
    - exists (manual +:+ " OR "). cbn [Py.join]. now rewrite !append_assoc.
    - exists (b +:+ " OR "). cbn [Py.join]. now rewrite !append_assoc.
    - exists EmptyString. reflexivity. }
  split; [exact Hsuffix | split].
  - destruct Hsuffix as [prefix ->]. intros H. apply append_empty_r in H.
    vm_compute in H. discriminate H.
  - intros Hm Hsel. unfold _compose_keywords. cbv zeta.
    rewrite (flat_map_all_nil _ _ Hsel). rewrite filter_nil. cbn [Py.join].
    rewrite !filter_cons, filter_nil.
    rewrite (decide_False (P := not_blank manual = true)) by congruence.
    reflexivity.
Qed.

Lemma compose_keywords_edges_witness :
  _compose_keywords "   " ["Cobol"; "Fortran"] false = EmptyString.
Proof.
  apply (proj2 (proj2 (compose_keywords_edges "   " ["Cobol"; "Fortran"]))).
  - reflexivity.
  - intros name [<- | [<- | []]]; reflexivity.
Defined.

(** X17. Names that are not keys of [KEYWORD_BUCKETS] do not show in the
    composed query: dropping them from the selection changes nothing. *)
Theorem compose_keywords_unknown_buckets
    (manual : string) (selected_buckets : list string) (use_training : bool) :
  _compose_keywords manual selected_buckets use_training
  = _compose_keywords manual (filter (fun name => bucket name ≠ []) selected_buckets)
      use_training.
Proof.
  unfold _compose_keywords. cbv zeta.
  assert (Hflat : flat_map bucket (filter (fun name => bucket name ≠ []) selected_buckets)
                  = flat_map bucket selected_buckets).
  { induction selected_buckets as [|n r IH]; [reflexivity |].
    rewrite filter_cons. destruct (decide (bucket n ≠ [])) as [Hn | Hn].
    - cbn [flat_map]. now rewrite IH.
    - cbn [flat_map]. rewrite IH.
      destruct (bucket n); [reflexivity | exfalso; apply Hn; discriminate]. }
  now rewrite Hflat.
Qed.

Lemma has_char_rev_app c s1 s2 :
  has_char c (String.rev_app s1 s2) = has_char c s1 || has_char c s2.
Proof.
  revert s2. induction s1 as [|a r IH]; intros s2; [reflexivity |].
  cbn [String.rev_app has_char]. rewrite IH. cbn [has_char].
  destruct (Ascii.eqb a c), (has_char c r), (has_char c s2); reflexivity.
Qed.

Lemma has_char_rev c s : has_char c (String.rev s) = has_char c s.
Proof. unfold String.rev. rewrite has_char_rev_app. cbn. apply orb_false_r. Qed.

Ltac strip_leaf IH Hlen H :=
  first
    [ exact H
    | apply IH;
      [ cbn [String.length] in Hlen; lia
      | cbn [has_char] in H;
        repeat match type of H with
               | (_ || _)%bool = false => apply orb_false_elim in H as [_ H]
               end;
        exact H ] ].

Lemma lstrip_no_char c n :
  ∀ s, (String.length s ≤ n)%nat → has_char c s = false →
       has_char c (Py.lstrip s) = false.
Proof.
  induction n as [|n IH]; intros s Hlen H.
  - destruct s; [reflexivity | cbn [String.length] in Hlen; lia].
  - destruct s as [|a t]; [reflexivity |].
    cbn [Py.lstrip].
    repeat match goal with
           | |- context [match ?x with _ => _ end] => destruct x
           end;
      strip_leaf IH Hlen H.
Qed.

Lemma lstrip_rev_no_char c n :
  ∀ s, (String.length s ≤ n)%nat → has_char c s = false →
       has_char c (Py.lstrip_rev s) = false.
Proof.
  induction n as [|n IH]; intros s Hlen H.
  - destruct s; [reflexivity | cbn [String.length] in Hlen; lia].
  - destruct s as [|a t]; [reflexivity |].
    cbn [Py.lstrip_rev].
    repeat match goal with
           | |- context [match ?x with _ => _ end] => destruct x
           end;
      strip_leaf IH Hlen H.
Qed.

Lemma strip_no_char c s : has_char c s = false → has_char c (Py.strip s) = false.
Proof.
  intros H. unfold Py.strip, Py.rstrip. rewrite has_char_rev.
  apply (lstrip_rev_no_char c _ _ (Nat.le_refl _)). rewrite has_char_rev.
  now apply (lstrip_no_char c _ _ (Nat.le_refl _)).
Qed.

Lemma split_on_pieces sep s :
  Forall (fun x => has_char sep x = false) (Py.split_on sep s).
Proof.
  induction s as [|c r IH]; [repeat constructor |].
  cbn [Py.split_on]. destruct (Ascii.eqb c sep) eqn:Hc.
  - constructor; [reflexivity | exact IH].
  - destruct (Py.split_on sep r) as [|h t]; [repeat constructor; cbn; now rewrite Hc |].
    inversion IH; subst. constructor; [cbn; now rewrite Hc | assumption].
Qed.

(** X19. Every element [_parse_csv_list] returns is non-empty and holds
    no comma; for [None] and for the empty string the list is empty. *)
Theorem parse_csv_list_elements (value : option string) :
  Forall (fun e => e ≠ EmptyString ∧ has_char "," e = false) (_parse_csv_list value)
  ∧ (Py.opt_truthy value = false → _parse_csv_list value = []).
Proof.
  split.
  - unfold _parse_csv_list. destruct value as [v |]; [| constructor].
    destruct (Py.nonempty v); [| constructor].
    apply Forall_forall. intros e He. apply list_elem_of_In in He.
    apply in_map_iff in He as (piece & <- & Hpiece).
    apply list_elem_of_In, list_elem_of_filter in Hpiece as [Hkeep Hin].
    split.
    + now apply nonempty_neq.
    + apply strip_no_char.
      pose proof (split_on_pieces "," v) as Hall.
      rewrite Forall_forall in Hall. now apply Hall.
  - unfold _parse_csv_list. destruct value as [v |]; [| reflexivity].
    cbn. now intros ->.
Qed.

Lemma parse_csv_list_elements_witness :
  _parse_csv_list (Some EmptyString) = []
  ∧ _parse_csv_list (Some " 75, ,92 ,,93") = ["75"; "92"; "93"].
Proof.
  split.
  - apply (proj2 (parse_csv_list_elements (Some EmptyString))). reflexivity.
  - reflexivity.
Defined.

(* --------------------------------------------------------------------- *)
(** ** Cache key, normalisation of the arguments *)
(* --------------------------------------------------------------------- *)

(** X18. Two requests get the same cache key as soon as they agree on
    every argument up to the order of the department codes, up to
    [nature_in] being [None] or the empty list, and up to [sort] being
    [None] or the empty string. *)
Theorem cache_key_normalises_arguments
    (E : env) (a a' : search_args) (fields : ResolvedFields) :
  a_q a = a_q a' →
  a_cpv_prefix a = a_cpv_prefix a' →
  a_dept_codes a ≡ₚ a_dept_codes a' →
  a_buyer a = a_buyer a' →
  a_date_from a = a_date_from a' →
  a_date_to a = a_date_to a' →
  nature_or_empty (a_nature_in a) = nature_or_empty (a_nature_in a') →
  a_use_training a = a_use_training a' →
  a_page a = a_page a' →
  a_page_size a = a_page_size a' →
  sort_or_empty (a_sort a) = sort_or_empty (a_sort a') →
  cache_key E a fields = cache_key E a' fields.
Proof.
  intros Hq Hcpv Hdept Hbuyer Hfrom Hto Hnature Htraining Hpage Hsize Hsort.
  unfold cache_key, cache_key_dict.
  fold (nature_or_empty (a_nature_in a)) (nature_or_empty (a_nature_in a')).
  fold (sort_or_empty (a_sort a)) (sort_or_empty (a_sort a')).
  rewrite Hq, Hcpv, (sorted_permutation _ _ Hdept), Hbuyer, Hfrom, Hto, Hnature,
    Htraining, Hpage, Hsize, Hsort.
  reflexivity.
Qed.

(** The sample search with its nature list and its sort key kept and the
    department codes exchanged; and with no nature filter and no sort
    key, written in the two ways. *)
Lemma cache_key_normalises_arguments_witness :
  cache_key portal_up sample_args sample_fields
  = cache_key portal_up (with_dept_codes ["75"; "92"] sample_args) sample_fields
  ∧ cache_key portal_up
      (with_dept_codes ["93"; "75"] (with_nature_in None (with_sort None sample_args)))
      sample_fields
    = cache_key portal_up
        (with_dept_codes ["75"; "93"]
           (with_nature_in (Some []) (with_sort (Some EmptyString) sample_args)))
        sample_fields.
Proof.
  split.
  - apply (cache_key_normalises_arguments portal_up sample_args
             (with_dept_codes ["75"; "92"] sample_args) sample_fields);
      try reflexivity.
    apply Permutation_swap.
  - apply (cache_key_normalises_arguments portal_up
             (with_dept_codes ["93"; "75"]
                (with_nature_in None (with_sort None sample_args)))
             (with_dept_codes ["75"; "93"]
                (with_nature_in (Some []) (with_sort (Some EmptyString) sample_args)))
             sample_fields);
      try reflexivity.
    apply Permutation_swap.
Defined.

(* --------------------------------------------------------------------- *)
(** ** Answers that are not objects, and the schema refresh *)
(* --------------------------------------------------------------------- *)

Section MoreOrchestratorProperties.

Variable E : env.

(** X20. With Explore preferred and a miss in the result cache, an
    Explore answer that is valid JSON but not an object makes
    [perform_search] raise an exception outside the three classes that
    authorise the fallback: no Records v1 request is sent and nothing is
    stored. *)
Theorem explore_answer_not_object_no_fallback
    (a : search_args) (w0 w1 w2 w3 : world) (schema data : json) :
  let fields := resolve_fields schema in
  PREFER_EXPLORE (cfg E) = true →
  fetch_dataset_schema E false w0 = (Ok schema, w1) →
  _cache_get E (cache_key E a fields) w1 = (Ok None, w2) →
  _http_get_json E (explore_url_sent E a fields) w2 = (Ok data, w3) →
  (∀ members, data ≠ JObj members) →
  perform_search E a w0 = (Raise OtherError, w3)
  ∧ attempts (records_v1_url_sent E a fields) (requests w3)
    = attempts (records_v1_url_sent E a fields) (requests w0)
  ∧ results_cache w3 = results_cache w2.
Proof.
  intros fields Hpref Hfetch Hget Hhttp Hdata.
  assert (Hrun : run_explore E a fields w2 = (Raise OtherError, w3)).
  { unfold run_explore, _try_explore, bind. fold (explore_url_sent E a fields).
    rewrite Hhttp. unfold records_of.
    destruct data; try reflexivity. exfalso. now apply (Hdata members). }
  split; [| split].
  - unfold perform_search, bind. rewrite Hfetch. fold fields. rewrite Hget, Hpref.
    unfold try_catch. now rewrite cached_call_eq, Hrun.
  - rewrite (http_get_json_attempts _ _ _ _ _ _ Hhttp).
    rewrite decide_False by apply explore_url_not_records_v1.
    rewrite Nat.add_0_r.
    apply (prologue_attempts E a fields _ _ _ _ _ _ (or_introl eq_refl) Hfetch Hget).
  - apply (http_get_json_frame _ _ _ _ _ Hhttp).
Qed.

(** X21. The schema refresh of the search page never raises.  When its
    fetch fails, the old snapshot stays in [_SCHEMA_CACHE] with timestamp
    0, so that it is no longer served once the clock reads 600 or more:
    the next plain call fetches again. *)
Theorem refresh_schema_failure_expires_snapshot (w w' : world) (e : exn) :
  _http_get_json E (schema_url E) (tick (set_schema (schema_value w) 0 w))
  = (Raise e, w') →
  refresh_schema E w = (Ok tt, w')
  ∧ schema_value w' = schema_value w
  ∧ schema_ts w' = 0%Z
  ∧ ∀ later,
      schema_ts later = schema_ts w' →
      (_SCHEMA_TTL_SECONDS ≤ time E (clock_reads later))%Z →
      schema_cache_serves E false later = false.
Proof.
  intros Hfail.
  destruct (http_get_json_frame _ _ _ _ _ Hfail) as (Hv & Hts & _ & _).
  cbn [schema_value schema_ts tick set_schema] in Hv, Hts.
  split; [| split; [exact Hv | split; [exact Hts |]]].
  - unfold refresh_schema. cbv zeta.
    rewrite (fetch_dataset_schema_fetches E true _ eq_refl), Hfail. reflexivity.
  - intros later Hlts Hclock. unfold schema_cache_serves.
    rewrite Hlts, Hts, Z.sub_0_r.
    replace (time E (clock_reads later) <? _SCHEMA_TTL_SECONDS)%Z with false
      by (symmetry; apply Z.ltb_ge; exact Hclock).
    apply andb_false_r.
Qed.

End MoreOrchestratorProperties.

(** On [explore_answers_array] the search raises and only the catalog and
    Explore were requested. *)
Lemma explore_answer_not_object_no_fallback_witness :
  fst (perform_search explore_answers_array sample_args initial_world) = Raise OtherError
  ∧ length (requests (snd (perform_search explore_answers_array sample_args initial_world)))
    = 2%nat.
Proof.
  destruct (explore_answer_not_object_no_fallback explore_answers_array sample_args
              initial_world
              (snd (fetch_dataset_schema explore_answers_array false initial_world))
              (after_lookup explore_answers_array)
              (snd (_http_get_json explore_answers_array
                      (explore_url_sent explore_answers_array sample_args sample_fields)
                      (after_lookup explore_answers_array)))
              sample_schema
              (JArr [JObj [("objet", JStr "Formation bureautique")]]))
    as (Hps & _ & _);
    [reflexivity | vm_compute; reflexivity | vm_compute; reflexivity
     | vm_compute; reflexivity | discriminate |].
  rewrite Hps. cbn [fst snd]. split; [reflexivity | vm_compute; reflexivity].
Defined.

(** On [catalog_down_later] a refresh after the first fetch fails: the
    snapshot stays, its timestamp is 0, and it is no longer served. *)
Lemma refresh_schema_failure_expires_snapshot_witness :
  schema_value (snd (refresh_schema catalog_down_later
                       (snd (fetch_dataset_schema catalog_down_later false initial_world))))
  = sample_schema
  ∧ schema_cache_serves catalog_down_later false
      (snd (refresh_schema catalog_down_later
              (snd (fetch_dataset_schema catalog_down_later false initial_world))))
    = false.
Proof.
  destruct (refresh_schema_failure_expires_snapshot catalog_down_later
              (snd (fetch_dataset_schema catalog_down_later false initial_world))
              (snd (refresh_schema catalog_down_later
                      (snd (fetch_dataset_schema catalog_down_later false initial_world))))
              URLError)
    as (_ & Hval & _ & Hlater); [vm_compute; reflexivity |].
  split.
  - rewrite Hval. vm_compute. reflexivity.
  - apply Hlater; [reflexivity | vm_compute; discriminate].
Defined.
